(** * rebang: the bang suggestion dropdown and the search form

    A shallow embedding of [src/components/BangDropdown.ts] (the suggestion
    controller) and of [SearchForm.handleBangSelection], with the page the
    controller lives in (document tree, listener registrations, pending
    timers) made explicit, so that statements about closing, disposal and
    late callbacks can be written down and proved. *)

From Stdlib Require Import String Ascii List ZArith Lia Bool Arith.
Import ListNotations.

Local Open Scope string_scope.
Local Open Scope Z_scope.

(* ===================================================================== *)
(** * JavaScript strings *)
(* ===================================================================== *)

(** The few [String.prototype] operations the sources use, over Rocq
    strings read as sequences of code units. *)
Module JsString.

(** [s.includes(needle)] *)
Fixpoint includes (needle s : string) : bool :=
  String.prefix needle s ||
  match s with
  | EmptyString => false
  | String _ rest => includes needle rest
  end.

(** [s.startsWith(p)] *)
Definition startsWith (p s : string) : bool := String.prefix p s.

(** Position of the last occurrence of the code unit [c], counted from
    [pos], as [lastIndexOf] counts it; [None] stands for [-1]. *)
Fixpoint lastIndexFrom (c : ascii) (s : string) (pos : nat) : option nat :=
  match s with
  | EmptyString => None
  | String a rest =>
      match lastIndexFrom c rest (S pos) with
      | Some k => Some k
      | None => if Ascii.eqb a c then Some pos else None
      end
  end.

(** [s.lastIndexOf(c)] for a one-unit search string *)
Definition lastIndexOf (c : ascii) (s : string) : Z :=
  match lastIndexFrom c s 0 with
  | Some k => Z.of_nat k
  | None => -1
  end.

(** [s.substring(0, stop)]: negative bounds clamp to 0, large ones to the
    length. *)
Definition substring0 (stop : Z) (s : string) : string :=
  String.substring 0 (Z.to_nat stop) s.

(** [!s]: the empty string is the only falsy string. *)
Definition falsy (s : string) : bool :=
  match s with EmptyString => true | _ => false end.

Definition lower_ascii (a : ascii) : ascii :=
  let n := nat_of_ascii a in
  if (Nat.leb 65 n && Nat.leb n 90)%bool then ascii_of_nat (n + 32) else a.

(** [s.toLowerCase()] on the ASCII range *)
Fixpoint toLowerCase (s : string) : string :=
  match s with
  | EmptyString => EmptyString
  | String a rest => String (lower_ascii a) (toLowerCase rest)
  end.


(** White space in the sense of the specification: space, tab, line feed,
    vertical tab, form feed, carriage return. *)
Definition is_space (a : ascii) : bool :=
  let n := nat_of_ascii a in
  (Nat.eqb n 32 || (Nat.leb 9 n && Nat.leb n 13))%bool.

Fixpoint has_whitespace (s : string) : bool :=
  match s with
  | EmptyString => false
  | String a rest => is_space a || has_whitespace rest
  end.

End JsString.

(* ===================================================================== *)
(** * Bang items and the match engine *)
(* ===================================================================== *)

(** Modelled from the spec: the type [BangItem] ([types/BangItem]) is not
    among the sources.  The dropdown only reads the field [t]; the other
    two fields are the service name and the weight of the specification's
    [BangDefinition].  [String(bang.t)] is the identity on a string [t]. *)
Record BangItem : Type := mkBang {
  t : string;   (* trigger *)
  s : string;   (* service name *)
  r : Z         (* weight *)
}.

Module MatchEngine.

Section Sorting.
Variable A : Type.
Variable le : A -> A -> bool.

Fixpoint insert_by (x : A) (l : list A) : list A :=
  match l with
  | [] => [x]
  | y :: l' => if le x y then x :: l else y :: insert_by x l'
  end.

Fixpoint sort_by (l : list A) : list A :=
  match l with
  | [] => []
  | x :: l' => insert_by x (sort_by l')
  end.

End Sorting.

Arguments insert_by {A}.
Arguments sort_by {A}.

Definition norm (x : string) : string := JsString.toLowerCase x.

Definition isExact (q : string) (b : BangItem) : bool :=
  String.eqb (norm (t b)) (norm q).

Definition isPrefix (q : string) (b : BangItem) : bool :=
  JsString.startsWith (norm q) (norm (t b)).

Definition nameContains (q : string) (b : BangItem) : bool :=
  JsString.includes (norm q) (norm (s b)).

(** Descending weight, then alphabetically by trigger. *)
Definition byWeight (a b : BangItem) : bool :=
  (r b <? r a) || ((r a =? r b) && String.leb (norm (t a)) (norm (t b))).

(** Ascending trigger length, then [byWeight]. *)
Definition byLength (a b : BangItem) : bool :=
  let la := String.length (t a) in
  let lb := String.length (t b) in
  (Nat.ltb la lb || (Nat.eqb la lb && byWeight a b))%bool.

(** Modelled from the spec: [filterAndSortBangs] ([utils/bangUtils]) is
    not among the sources.  Section 4.2: exact trigger equality first, then
    triggers that start with the partial (ascending length, descending
    weight, alphabetical), then service names that contain the partial
    (descending weight, alphabetical), truncated to [maxItems]; an empty
    partial or one with white space yields the empty result; comparison
    is case-insensitive. *)
Definition filterAndSortBangs
    (catalog : list BangItem) (query : string) (maxItems : nat)
    : list BangItem :=
  if (JsString.falsy query || JsString.has_whitespace query)%bool then []
  else
    let exact := filter (isExact query) catalog in
    let starts :=
      filter (fun b => negb (isExact query b) && isPrefix query b) catalog in
    let named :=
      filter (fun b => negb (isExact query b) && negb (isPrefix query b)
                       && nameContains query b) catalog in
    firstn maxItems (exact ++ sort_by byLength starts ++ sort_by byWeight named).

End MatchEngine.

(* ===================================================================== *)
(** * Collaborators that are not part of the sources *)
(* ===================================================================== *)

(** The dropdown calls into [utils/bangUtils] and [utils/dropdownUtils].
    Their code is taken as a parameter: every statement about the dropdown
    below holds whatever these functions compute.  The hover handlers and
    [Navigate] receive the dropdown through the [DropdownRenderer]
    interface; what they can do to the controller is to move the selected
    index, so each is a function to the new index. *)
Class Collaborators : Type := {
  (** [filterAndSortBangs(combinedBangs, query, maxItems)] *)
  filterAndSortBangs : list BangItem -> string -> nat -> list BangItem;
  (** [HandleHovers(dropdown, index, element)]: selected index before,
      hovered index, selected index after *)
  HandleHovers : Z -> Z -> Z;
  (** [HandleMouseLeave(dropdown, element)] *)
  HandleMouseLeave : Z -> Z;
  (** [Navigate(dropdown, direction)]: candidates, selected index before,
      direction, selected index after *)
  Navigate : list BangItem -> Z -> Z -> Z
}.

(** Modelled from the spec: the collaborators as sections 4.2 and 4.5
    describe them.  Hovering a candidate selects it, leaving it changes
    nothing, and the arrow keys move the selection by one and wrap at both
    ends. *)
#[export] Instance SpecCollaborators : Collaborators := {|
  filterAndSortBangs := MatchEngine.filterAndSortBangs;
  HandleHovers := fun _ index => index;
  HandleMouseLeave := fun selected => selected;
  Navigate := fun items selected direction =>
    let n := Z.of_nat (length items) in
    if n =? 0 then selected
    else if selected <? 0 then (if 0 <? direction then 0 else n - 1)
    else (selected + direction) mod n
|}.

(* ===================================================================== *)
(** * The page and the controller *)
(* ===================================================================== *)

(** What a dropdown container holds: nothing, a message, or the results
    container [renderItems] builds with its rows (one [.cursor-pointer]
    element of [buildBangItemElement] per item).  The results container and
    the rows are children of the dropdown container and live here, not in
    [elements] below.  [Results] rows carry the listeners of [populate];
    [CallerRows] are rows that an outside call of [renderItems] rendered,
    with the caller's callbacks on them. *)
Inductive Content : Type :=
| Blank
| Message (text : string)
| Results (items : list BangItem)
| CallerRows (items : list BangItem).

(** The [callbacks] argument of [renderItems]: the closures of [populate],
    or those of a caller outside the class. *)
Inductive Callbacks : Type := OwnCallbacks | CallerCallbacks.

Inductive PositionStyle : Type := Absolute | Fixed.

(** [BangDropdownOptions] as the caller passes it. *)
Record UserOptions : Type := mkUserOptions {
  u_maxItems : option nat;
  u_onSelectBang : bool;          (* is a callback given? *)
  u_appendTo : bool;              (* is an element given? *)
  u_positionStyle : option PositionStyle
}.

(** [this.options] after the constructor filled in the defaults. *)
Record BangDropdownOptions : Type := mkOptions {
  maxItems : nat;
  onSelectBang : bool;
  appendTo : bool;
  positionStyle : option PositionStyle
}.

(** Callbacks handed to [setTimeout]. *)
Inductive Timer : Type :=
| HideRecheck            (* hide(), delay 0 *)
| OutsideClickRecheck.   (* documentClickHandler, delay 10 *)

(** The fields of a [BangDropdown] instance.  [container] is the identity
    of the element it refers to; [selectedIndex] is an integer. *)
Record Dropdown : Type := mkDropdown {
  container : option nat;
  isVisible : bool;
  selectedIndex : Z;
  options : BangDropdownOptions;
  filteredBangs : list BangItem;
  resizeHandler : bool              (* non-null? *)
}.

(** The page around it. *)
Record Page : Type := mkPage {
  elements : list (nat * Content);  (* every container created, newest first *)
  attached : list nat;              (* the containers that are in the document *)
  inputHasParent : bool;            (* the input has a wrapper or a parent *)
  clickListener : bool;             (* document "click" -> documentClickHandler *)
  keydownListener : bool;           (* input "keydown" -> tabKeyHandler *)
  resizeListener : bool;            (* window "resize" -> resizeHandler *)
  timers : list Timer;              (* pending timeouts, oldest first *)
  selections : list string;         (* arguments of the calls of onSelectBang *)
  footerDisabled : bool;            (* toggleFooterInteractions *)
  keyboardNavigation : bool;        (* setKeyboardNavigationActive *)
  catalog : list BangItem           (* getCombinedBangs(loadSettings()) *)
}.

Record World : Type := mkWorld {
  this : Dropdown;
  page : Page
}.

(** ** A state monad with [TypeError] *)

Inductive Completion (A : Type) : Type :=
| Normal (a : A) (w : World)
| TypeError (w : World).
Arguments Normal {A}.
Arguments TypeError {A}.

Definition M (A : Type) : Type := World -> Completion A.

Definition ret {A} (a : A) : M A := fun w => Normal a w.

Definition bind {A B} (m : M A) (k : A -> M B) : M B :=
  fun w => match m w with
           | Normal a w' => k a w'
           | TypeError w' => TypeError w'
           end.

Definition throw {A} : M A := fun w => TypeError w.

Declare Scope js_scope.
Delimit Scope js_scope with js.
Notation "x <- m ;; k" := (bind m (fun x => k))
  (at level 61, m at next level, right associativity) : js_scope.
Notation "m ;; k" := (bind m (fun _ => k))
  (at level 61, right associativity) : js_scope.
Local Open Scope js_scope.

Definition read {A} (f : Dropdown -> A) : M A := fun w => Normal (f (this w)) w.
Definition readPage {A} (f : Page -> A) : M A := fun w => Normal (f (page w)) w.
Definition write (f : Dropdown -> Dropdown) : M unit :=
  fun w => Normal tt (mkWorld (f (this w)) (page w)).
Definition writePage (f : Page -> Page) : M unit :=
  fun w => Normal tt (mkWorld (this w) (f (page w))).

Definition when (b : bool) (m : M unit) : M unit := if b then m else ret tt.

(** The world a computation leaves behind, however it completes. *)
Definition after {A} (m : M A) (w : World) : World :=
  match m w with Normal _ w' => w' | TypeError w' => w' end.

Definition throws {A} (m : M A) (w : World) : bool :=
  match m w with Normal _ _ => false | TypeError _ => true end.

(* ===================================================================== *)
(** * utils/dom and utils/dropdownUtils, as far as the controller sees them *)
(* ===================================================================== *)

Module Dom.

Definition contentOf (id : nat) (p : Page) : Content :=
  match find (fun e => Nat.eqb (fst e) id) (elements p) with
  | Some e => snd e
  | None => Blank
  end.

Definition setContent (id : nat) (c : Content) (p : Page) : Page :=
  mkPage (map (fun e => if Nat.eqb (fst e) id then (id, c) else e) (elements p))
         (attached p) (inputHasParent p) (clickListener p) (keydownListener p)
         (resizeListener p) (timers p) (selections p) (footerDisabled p)
         (keyboardNavigation p) (catalog p).

Definition withElements (es : list (nat * Content)) (p : Page) : Page :=
  mkPage es (attached p) (inputHasParent p) (clickListener p)
         (keydownListener p) (resizeListener p) (timers p) (selections p)
         (footerDisabled p) (keyboardNavigation p) (catalog p).

Definition withAttached (a : list nat) (p : Page) : Page :=
  mkPage (elements p) a (inputHasParent p) (clickListener p)
         (keydownListener p) (resizeListener p) (timers p) (selections p)
         (footerDisabled p) (keyboardNavigation p) (catalog p).

Definition withListeners (click keydown resize : bool) (p : Page) : Page :=
  mkPage (elements p) (attached p) (inputHasParent p) click keydown resize
         (timers p) (selections p) (footerDisabled p) (keyboardNavigation p)
         (catalog p).

Definition withTimers (ts : list Timer) (p : Page) : Page :=
  mkPage (elements p) (attached p) (inputHasParent p) (clickListener p)
         (keydownListener p) (resizeListener p) ts (selections p)
         (footerDisabled p) (keyboardNavigation p) (catalog p).

Definition withSelections (l : list string) (p : Page) : Page :=
  mkPage (elements p) (attached p) (inputHasParent p) (clickListener p)
         (keydownListener p) (resizeListener p) (timers p) l
         (footerDisabled p) (keyboardNavigation p) (catalog p).

Definition withFooterDisabled (b : bool) (p : Page) : Page :=
  mkPage (elements p) (attached p) (inputHasParent p) (clickListener p)
         (keydownListener p) (resizeListener p) (timers p) (selections p)
         b (keyboardNavigation p) (catalog p).

Definition withKeyboardNavigation (b : bool) (p : Page) : Page :=
  mkPage (elements p) (attached p) (inputHasParent p) (clickListener p)
         (keydownListener p) (resizeListener p) (timers p) (selections p)
         (footerDisabled p) b (catalog p).

(** Modelled from the spec: [createElement] of [utils/dom] is not among
    the sources.  It makes a new, empty element that is in no document
    yet; the result is the identity of the element. *)
Definition createElement : M nat :=
  fun w =>
    let id := length (elements (page w)) in
    Normal id (mkWorld (this w)
                       (withElements ((id, Blank) :: elements (page w)) (page w))).

(** [parent.appendChild(container)] for a parent that is in the page. *)
Definition appendChild (id : nat) : M unit :=
  writePage (fun p => withAttached (id :: attached p) p).

(** Modelled from the spec: [removeFromDOM] of [utils/dom] is not among
    the sources.  It takes the element out of the document, and does
    nothing for [null] (the timer of [hide] passes [this.container], which
    can be [null]). *)
Definition removeFromDOM (el : option nat) : M unit :=
  match el with
  | Some id =>
      writePage (fun p =>
        withAttached (filter (fun x => negb (Nat.eqb x id)) (attached p)) p)
  | None => ret tt
  end.

(** Modelled from the spec: [showMessage] of [utils/dom] is not among the
    sources.  The message takes the place of what the element held
    (section 4.2: a prompt state, not a listing). *)
Definition showMessage (id : nat) (text : string) : M unit :=
  writePage (setContent id (Message text)).

(** [container.innerHTML = ''] *)
Definition clearInnerHTML (id : nat) : M unit :=
  writePage (setContent id Blank).

(** The rows of [buildBangItemElement], wrapped in the results container
    and appended to the (just cleared) container, with the click, enter
    and leave listeners that call [callbacks]. *)
Definition appendResults (id : nat) (items : list BangItem)
    (callbacks : Callbacks) : M unit :=
  writePage (setContent id (match callbacks with
                            | OwnCallbacks => Results items
                            | CallerCallbacks => CallerRows items
                            end)).

(** [toggleFooterInteractions(b)] *)
Definition toggleFooterInteractions (b : bool) : M unit :=
  writePage (withFooterDisabled b).

(** [setKeyboardNavigationActive(b)] *)
Definition setKeyboardNavigationActive (b : bool) : M unit :=
  writePage (withKeyboardNavigation b).

(** [setTimeout(callback, delay)] *)
Definition setTimeout (cb : Timer) : M unit :=
  writePage (fun p => withTimers (timers p ++ [cb]) p).

(** The number of [.cursor-pointer] rows inside an element that carry the
    listeners of [populate]. *)
Definition rowCount (c : Content) : nat :=
  match c with
  | Results items => length items
  | _ => 0%nat
  end.

(** [getElementAtIndex(container, '.cursor-pointer', index)], as a test
    whether the row exists. *)
Definition hasRow (el : option nat) (index : Z) (p : Page) : bool :=
  match el with
  | Some id => (0 <=? index) && (index <? Z.of_nat (rowCount (contentOf id p)))
  | None => false
  end.

End Dom.

(* ===================================================================== *)
(** * components/BangDropdown.ts *)
(* ===================================================================== *)

Definition setContainer (c : option nat) (d : Dropdown) : Dropdown :=
  mkDropdown c (isVisible d) (selectedIndex d) (options d) (filteredBangs d)
             (resizeHandler d).

Definition setIsVisible (b : bool) (d : Dropdown) : Dropdown :=
  mkDropdown (container d) b (selectedIndex d) (options d) (filteredBangs d)
             (resizeHandler d).

Definition putSelectedIndex (i : Z) (d : Dropdown) : Dropdown :=
  mkDropdown (container d) (isVisible d) i (options d) (filteredBangs d)
             (resizeHandler d).

Definition putFilteredBangs (l : list BangItem) (d : Dropdown) : Dropdown :=
  mkDropdown (container d) (isVisible d) (selectedIndex d) (options d) l
             (resizeHandler d).

Definition setResizeHandler (b : bool) (d : Dropdown) : Dropdown :=
  mkDropdown (container d) (isVisible d) (selectedIndex d) (options d)
             (filteredBangs d) b.

Definition isFixed (o : BangDropdownOptions) : bool :=
  match positionStyle o with Some Fixed => true | _ => false end.

(** The constructor's merge [{ maxItems: 25, maxHeight: '30vh', ...options }]. *)
Definition withDefaults (o : UserOptions) : BangDropdownOptions :=
  mkOptions (match u_maxItems o with Some n => n | None => 25%nat end)
            (u_onSelectBang o) (u_appendTo o) (u_positionStyle o).

(** The world right after [new BangDropdown(inputElement, options)] on a
    page that has no dropdown yet: the fields at their initial values, the
    click and keydown listeners attached, the resize listener attached for
    fixed positioning with [appendTo]. *)
Definition construct (o : UserOptions) (hasParent : bool)
    (cat : list BangItem) : World :=
  let fixed := isFixed (withDefaults o) && u_appendTo o in
  mkWorld (mkDropdown None false (-1) (withDefaults o) [] fixed)
          (mkPage [] [] hasParent true true fixed [] [] false false cat).

(** [array[index]] for a number that holds an integer: [None] stands for
    [undefined], and reading the field [t] of [undefined] is a [TypeError]. *)
Definition itemAt (l : list BangItem) (index : Z) : option BangItem :=
  if index <? 0 then None else nth_error l (Z.to_nat index).

Definition isSome {A} (o : option A) : bool :=
  match o with Some _ => true | None => false end.

(** Where a click lands. *)
Inductive Target : Type :=
| OnInput                          (* the input element *)
| InDropdown (c : nat)             (* inside container [c], not on a row *)
| OnRow (c : nat) (index : nat)    (* on row [index] of container [c] *)
| Elsewhere.

(** What the event loop can deliver.  Pending timers may fire in any
    order. *)
Inductive Event : Type :=
| Click (target : Target)
| KeyDown (key : string)
| Resize
| MouseEnter (c : nat) (index : nat)
| MouseLeave (c : nat) (index : nat)
| Timeout (n : nat).               (* the [n]-th pending timer fires *)

(** The public methods that change something, as code outside the class
    can call them.  [RenderItems] is [renderItems] with the caller's own
    callbacks; what those callbacks do to the dropdown they do through
    these same methods, as further steps; outside code is taken to go
    through the methods and not to assign the public fields.
    [SetSelectedIndex] takes an integer: the non-integer values of the
    TypeScript type [number] are left out of the model. *)
Inductive Call : Type :=
| Show (query : string)
| Hide
| SetFilteredBangs (items : list BangItem)
| SetSelectedIndex (index : Z)
| SelectCurrent
| SelectTopOption
| NavigateUp
| NavigateDown
| Dispose
| RenderItems (items : list BangItem).

Inductive Step : Type :=
| Api (c : Call)
| Async (e : Event).

Section BangDropdown.
Context {C : Collaborators}.

Definition getSelectedIndex : M Z := read selectedIndex.

Definition setSelectedIndex (index : Z) : M unit :=
  write (putSelectedIndex index).

Definition getItems : M (list BangItem) := read filteredBangs.

Definition isDropdownVisible : M bool := read isVisible.

Definition clear : M unit :=
  c <- read container;;
  match c with
  | Some id => Dom.clearInnerHTML id
  | None => ret tt
  end;;
  write (putSelectedIndex (-1)).

Definition hide : M unit :=
  c <- read container;;
  match c with
  | Some id =>
      Dom.removeFromDOM (Some id);;
      write (setContainer None);;
      write (setIsVisible false);;
      write (putSelectedIndex (-1));;
      Dom.toggleFooterInteractions false;;
      Dom.setTimeout HideRecheck
  | None => ret tt
  end.

(** The callback [hide] hands to [setTimeout]: it reads [this.container]
    when it runs. *)
Definition hideRecheck : M unit :=
  c <- read container;;
  Dom.removeFromDOM c;;
  write (setContainer None).

(** [options.onSelectBang] is the caller's code; its call is recorded in
    [selections], and it is taken not to call back into the dropdown. *)
Definition selectBang (bangText : string) : M unit :=
  o <- read options;;
  when (onSelectBang o)
       (writePage (fun p => Dom.withSelections (selections p ++ [bangText]) p));;
  hide.

Definition selectTopOption : M unit :=
  l <- read filteredBangs;;
  if 0 <? Z.of_nat (length l) then
    match itemAt l 0 with
    | Some bang => selectBang (t bang)
    | None => throw
    end
  else ret tt.

Definition selectCurrent : M unit :=
  Dom.setKeyboardNavigationActive true;;
  i <- read selectedIndex;;
  l <- read filteredBangs;;
  if (0 <=? i) && (i <? Z.of_nat (length l)) then
    match itemAt l i with
    | Some bang => selectBang (t bang)
    | None => throw
    end
  else hide.

(** The rows get listeners that call [callbacks]; for those of [populate]
    see [onClick], [onHover] and [onLeave] below.  Without a container the
    results container is built and dropped. *)
Definition renderItems (items : list BangItem) (callbacks : Callbacks)
    : M unit :=
  clear;;
  c <- read container;;
  match c with
  | Some id =>
      if Nat.eqb (length items) 0
      then Dom.showMessage id "No matching bangs found"
      else Dom.appendResults id items callbacks
  | None => ret tt
  end.

Definition populate : M unit :=
  c <- read container;;
  l <- read filteredBangs;;
  when (isSome c) (renderItems l OwnCallbacks).

(** The new container goes under [options.appendTo], else under the
    input's wrapper or parent; [positionDropdown] only moves it. *)
Definition ensureContainer : M unit :=
  c <- read container;;
  match c with
  | Some _ => ret tt
  | None =>
      id <- Dom.createElement;;
      write (setContainer (Some id));;
      o <- read options;;
      if appendTo o then Dom.appendChild id
      else (hp <- readPage inputHasParent;; when hp (Dom.appendChild id))
  end.

(** [container.style.display], [positionDropdown] and [applyDropdownStyle]
    set styles and touch no field; they are left out. *)
Definition show (query : string) : M unit :=
  ensureContainer;;
  c <- read container;;
  match c with
  | None => ret tt
  | Some id =>
      if JsString.includes " " query then hide
      else
        write (setIsVisible true);;
        if JsString.falsy query
        then Dom.showMessage id "Start typing to search for bangs..."
        else
          cat <- readPage catalog;;
          o <- read options;;
          write (putFilteredBangs (filterAndSortBangs cat query (maxItems o)));;
          populate;;
          c' <- read container;;
          when (isSome c') (Dom.toggleFooterInteractions true)
  end.

Definition setFilteredBangs (items : list BangItem) : M unit :=
  write (putFilteredBangs items);;
  v <- read isVisible;;
  c <- read container;;
  when (v && isSome c) populate.

Definition navigate (direction : Z) : M unit :=
  Dom.setKeyboardNavigationActive true;;
  l <- read filteredBangs;;
  i <- read selectedIndex;;
  write (putSelectedIndex (Navigate l i direction)).

Definition navigateUp : M unit := navigate (-1).
Definition navigateDown : M unit := navigate 1.

Definition dispose : M unit :=
  writePage (fun p =>
    Dom.withListeners false (keydownListener p) (resizeListener p) p);;
  writePage (fun p =>
    Dom.withListeners (clickListener p) false (resizeListener p) p);;
  hide;;
  rh <- read resizeHandler;;
  when rh
    (writePage (fun p =>
       Dom.withListeners (clickListener p) (keydownListener p) false p);;
     write (setResizeHandler false));;
  write (setContainer None);;
  write (putFilteredBangs []).

(** ** The listeners the constructor installs *)

(** [this.container?.contains(target)] *)
Definition containerContains (c : option nat) (target : Target) : bool :=
  match c, target with
  | Some id, InDropdown c' => Nat.eqb id c'
  | Some id, OnRow c' _ => Nat.eqb id c'
  | _, _ => false
  end.

Definition isInput (target : Target) : bool :=
  match target with OnInput => true | _ => false end.

Definition documentClickHandler (target : Target) : M unit :=
  v <- read isVisible;;
  if negb v then ret tt
  else
    c <- read container;;
    let clickedOnDropdown := containerContains c target in
    let clickedOnInput := isInput target in
    if negb clickedOnDropdown && negb clickedOnInput
    then hide;; Dom.setTimeout OutsideClickRecheck
    else ret tt.

(** The callback [documentClickHandler] hands to [setTimeout]. *)
Definition outsideClickRecheck : M unit :=
  v <- read isVisible;;
  when v hide.

Definition tabKeyHandler (key : string) : M unit :=
  v <- read isVisible;;
  l <- read filteredBangs;;
  if String.eqb key "Tab" && v && (0 <? Z.of_nat (length l)) then
    i <- read selectedIndex;;
    (if 0 <=? i then selectCurrent else selectTopOption);;
    hide
  else ret tt.

(** [positionDropdown] moves the element and touches no field. *)
Definition resizeHandlerBody : M unit := ret tt.

(** ** The listeners [populate] puts on the rows *)

Definition onClick (index : Z) : M unit :=
  write (putSelectedIndex index);;
  selectCurrent.

Definition onHover (index : Z) : M unit :=
  c <- read container;;
  p <- readPage (fun p => p);;
  i <- read selectedIndex;;
  when (Dom.hasRow c index p) (write (putSelectedIndex (HandleHovers i index))).

Definition onLeave (index : Z) : M unit :=
  c <- read container;;
  p <- readPage (fun p => p);;
  i <- read selectedIndex;;
  when (Dom.hasRow c index p) (write (putSelectedIndex (HandleMouseLeave i))).

(** Modelled from the spec: the Enter key is handled by
    [BangSuggestionManager], which is not among the sources.  Section 4.5
    treats Enter like Tab on a selected candidate; through the
    [DropdownRenderer] interface that is a call of [selectCurrent]. *)
Definition enterKeyHandler : M unit := selectCurrent.


(** ** The event loop *)

Definition isAttached (c : nat) (p : Page) : bool :=
  existsb (Nat.eqb c) (attached p).

Definition rowExists (c index : nat) (p : Page) : bool :=
  isAttached c p && Nat.ltb index (Dom.rowCount (Dom.contentOf c p)).

(** A click can only land on what is in the document. *)
Definition canLand (target : Target) (p : Page) : bool :=
  match target with
  | OnInput | Elsewhere => true
  | InDropdown c => isAttached c p
  | OnRow c index => rowExists c index p
  end.

Definition fire (tm : Timer) : M unit :=
  match tm with
  | HideRecheck => hideRecheck
  | OutsideClickRecheck => outsideClickRecheck
  end.

Definition dispatch (e : Event) : M unit :=
  match e with
  | Click target =>
      p <- readPage (fun p => p);;
      if canLand target p then
        match target with
        | OnRow _ index => onClick (Z.of_nat index)
        | _ => ret tt
        end;;
        l <- readPage clickListener;;
        when l (documentClickHandler target)
      else ret tt
  | KeyDown key =>
      l <- readPage keydownListener;;
      when l (tabKeyHandler key)
  | Resize =>
      l <- readPage resizeListener;;
      when l resizeHandlerBody
  | MouseEnter c index =>
      p <- readPage (fun p => p);;
      when (rowExists c index p) (onHover (Z.of_nat index))
  | MouseLeave c index =>
      p <- readPage (fun p => p);;
      when (rowExists c index p) (onLeave (Z.of_nat index))
  | Timeout n =>
      ts <- readPage timers;;
      match nth_error ts n with
      | Some tm =>
          writePage (Dom.withTimers (firstn n ts ++ skipn (S n) ts));;
          fire tm
      | None => ret tt
      end
  end.

Definition call (c : Call) : M unit :=
  match c with
  | Show query => show query
  | Hide => hide
  | SetFilteredBangs items => setFilteredBangs items
  | SetSelectedIndex index => setSelectedIndex index
  | SelectCurrent => selectCurrent
  | SelectTopOption => selectTopOption
  | NavigateUp => navigateUp
  | NavigateDown => navigateDown
  | Dispose => dispose
  | RenderItems items => renderItems items CallerCallbacks
  end.

Definition step (st : Step) : M unit :=
  match st with
  | Api c => call c
  | Async e => dispatch e
  end.

Fixpoint run (l : list Step) : M unit :=
  match l with
  | [] => ret tt
  | st :: l' => step st;; run l'
  end.

Definition asyncs (l : list Event) : M unit := run (map Async l).

(** ** Predicates on worlds *)

(** The spec's [Closed]: no surface and not visible. *)
Definition closed (w : World) : Prop :=
  container (this w) = None /\ isVisible (this w) = false.

(** Only the controller's current container is in the document. *)
Definition documentTidy (w : World) : Prop :=
  forall c, In c (attached (page w)) -> container (this w) = Some c.

(** The element the controller refers to was made by [createElement]. *)
Definition containerKnown (w : World) : Prop :=
  forall id, container (this w) = Some id ->
             In id (map fst (elements (page w))).

Definition wellFormed (w : World) : Prop :=
  documentTidy w /\ containerKnown w.

(** After [dispose]: no container, nothing of the dropdown in the
    document, the click and keydown listeners gone. *)
Definition disposed (w : World) : Prop :=
  container (this w) = None /\ filteredBangs (this w) = [] /\
  attached (page w) = [] /\
  clickListener (page w) = false /\ keydownListener (page w) = false.

(** A computation that completes normally and keeps worlds well formed. *)
Definition safe (m : M unit) : Prop :=
  forall w, wellFormed w ->
            m w = Normal tt (after m w) /\ wellFormed (after m w).

(** The worlds the dropdown can be in: built by the constructor, then any
    sequence of method calls and events. *)
Definition reachable (w : World) : Prop :=
  exists o hp cat l, w = after (run l) (construct o hp cat).

End BangDropdown.

(* ===================================================================== *)
(** * SearchForm.handleBangSelection *)
(* ===================================================================== *)

Module SearchForm.

(** The search input as [handleBangSelection] sees it. *)
Record SearchInput : Type := mkInput {
  value : string;
  focused : bool
}.

(** [searchInput.setValue(v)] *)
Definition setValue (v : string) (i : SearchInput) : SearchInput :=
  mkInput v (focused i).

(** [searchInput.focus()] *)
Definition focus (i : SearchInput) : SearchInput := mkInput (value i) true.

(** The timer that moves the cursor to the end touches the selection
    range only, not the value. *)
Definition handleBangSelection (bangText : string) (i : SearchInput)
    : SearchInput :=
  let inputValue := value i in
  let lastBangPos := JsString.lastIndexOf "!"%char inputValue in
  if 0 <=? lastBangPos then
    let newValue :=
      JsString.substring0 (lastBangPos + 1) inputValue ++ bangText ++ " " in
    focus (setValue newValue i)
  else i.

End SearchForm.

(* ===================================================================== *)
(** * Sample worlds *)
(* ===================================================================== *)

Module Sample.

Definition google : BangItem := mkBang "g" "Google" 10.
Definition images : BangItem := mkBang "gi" "Google Images" 5.
Definition github : BangItem := mkBang "gh" "GitHub" 7.
Definition wikipedia : BangItem := mkBang "w" "Wikipedia" 9.

Definition bangs : list BangItem := [google; images; wikipedia; github].

(** The options [BangSuggestionManager] would pass: a selection callback
    and nothing else. *)
Definition userOptions : UserOptions := mkUserOptions None true false None.

(** A freshly constructed dropdown. *)
Definition fresh : World := construct userOptions true bangs.

(** The user typed [!g]: the surface lists the candidates for ["g"]. *)
Definition listing : World := after (run [Api (Show "g")]) fresh.

(** ... and moved the selection to the second candidate. *)
Definition navigating : World :=
  after (run [Api NavigateDown; Api NavigateDown]) listing.

(** The surface was closed and opened again before the timer of [hide]
    ran; then the timer ran. *)
Definition overtaken : list Step :=
  [Api (Show "g"); Api Hide; Api (Show "w"); Async (Timeout 0)].


(** A dropdown that lists two candidates at most. *)
Definition capped : World :=
  construct (mkUserOptions (Some 2%nat) true false None) true bangs.

(** The surface lists three candidates and [setSelectedIndex(7)] was
    called. *)
Definition astray : World := after (run [Api (SetSelectedIndex 7)]) listing.


(** The user has typed a second bang at the end of the input. *)
Definition typed : SearchForm.SearchInput :=
  SearchForm.mkInput "cats !g dogs !gi" false.

End Sample.

(* ===================================================================== *)
(** * Assertions about computations *)
(* ===================================================================== *)

(** Started in a world that satisfies [P], the computation completes
    normally in a world that satisfies [Q]. *)
Definition triple (P : World -> Prop) (m : M unit) (Q : World -> Prop) : Prop :=
  forall w, P w -> m w = Normal tt (after m w) /\ Q (after m w).

(** The computation completes normally and hands at most [k] texts to
    [onSelectBang]. *)
Definition delivers (m : M unit) (k : nat) : Prop :=
  forall w, exists l,
    m w = Normal tt (after m w) /\
    selections (page (after m w)) = (selections (page w) ++ l)%list /\
    (length l <= k)%nat.

(** A controller that holds a container counts itself visible. *)
Definition containerVisible (w : World) : Prop :=
  container (this w) <> None -> isVisible (this w) = true.

(** The rows in the controller's container are its candidate list. *)
Definition rowsCurrent (w : World) : Prop :=
  forall id items,
    container (this w) = Some id ->
    Dom.contentOf id (page w) = Results items ->
    items = filteredBangs (this w) /\ items <> [].

(** The resize listener is registered exactly when [resizeHandler] is set. *)
Definition resizeBalanced (w : World) : Prop :=
  resizeListener (page w) = resizeHandler (this w).

Definition coherent (w : World) : Prop :=
  wellFormed w /\ containerVisible w /\ rowsCurrent w /\ resizeBalanced w.

(** Between [putFilteredBangs] and [populate]: the rows may lag behind. *)
Definition unrendered (w : World) : Prop :=
  wellFormed w /\ containerVisible w /\ resizeBalanced w.

(** Between [ensureContainer] and the rest of [show]: the container is
    there, [isVisible] may not be set yet. *)
Definition staged (w : World) : Prop :=
  wellFormed w /\ rowsCurrent w /\ resizeBalanced w /\
  container (this w) <> None.

(** What a container shows for a list of candidates. *)
Definition rendering (items : list BangItem) : Content :=
  if Nat.eqb (length items) 0 then Message "No matching bangs found"
  else Results items.

(** The steps that can end in a call of [onSelectBang]. *)
Definition selecting (st : Step) : bool :=
  match st with
  | Api SelectCurrent | Api SelectTopOption => true
  | Async (KeyDown _) => true
  | Async (Click (OnRow _ _)) => true
  | _ => false
  end.

Module Scenario.

(** The surface lists the candidates for ["g"] under fixed positioning. *)
Definition pinned : World :=
  after (run (C := SpecCollaborators) [Api (Show "g")])
        (construct (mkUserOptions None true true (Some Fixed)) true Sample.bangs).

(** The surface was closed by a click outside; its two timers are pending. *)
Definition dismissed : World :=
  after (run (C := SpecCollaborators) [Async (Click Elsewhere)]) Sample.listing.

(** The surface shows the prompt. *)
Definition prompting : World :=
  after (run (C := SpecCollaborators) [Api (Show "")]) Sample.fresh.

(** The surface was closed by a click outside and opened again at once,
    on another partial trigger; the two timers of the click are pending. *)
Definition reopened : World :=
  after (run (C := SpecCollaborators) [Async (Click Elsewhere); Api (Show "w")])
        Sample.listing.

(** The input after a first selection. *)
Definition chosen : SearchForm.SearchInput :=
  SearchForm.handleBangSelection "w" Sample.typed.

End Scenario.

(* ===================================================================== *)
(** * Facts about the embedding *)
(* ===================================================================== *)

Ltac open_world w :=
  let c := fresh "c" in let v := fresh "v" in let i := fresh "i" in
  let o := fresh "o" in let l := fresh "l" in let rh := fresh "rh" in
  let es := fresh "es" in let att := fresh "att" in let hp := fresh "hp" in
  let cl := fresh "cl" in let kl := fresh "kl" in let rl := fresh "rl" in
  let ts := fresh "ts" in let sel := fresh "sel" in let fd := fresh "fd" in
  let kn := fresh "kn" in let cat := fresh "cat" in
  destruct w as [[c v i o l rh] [es att hp cl kl rl ts sel fd kn cat]];
  cbn [this page container isVisible selectedIndex options filteredBangs
       resizeHandler elements attached inputHasParent clickListener
       keydownListener resizeListener timers selections footerDisabled
       keyboardNavigation catalog] in *.

(** Runs the monad on a world whose fields are in view. *)
Ltac js_run :=
  cbv beta iota delta
    [bind ret throw read readPage write writePage when
     Dom.createElement Dom.appendChild Dom.removeFromDOM Dom.showMessage
     Dom.clearInnerHTML Dom.appendResults Dom.toggleFooterInteractions
     Dom.setKeyboardNavigationActive Dom.setTimeout];
  cbn.

Section Facts.
Context {C : Collaborators}.

Lemma safe_intro (m : M unit) (w w' : World) :
  m w = Normal tt w' -> wellFormed w' ->
  m w = Normal tt (after m w) /\ wellFormed (after m w).
Proof. intros E W. unfold after. rewrite E. split; [reflexivity | exact W]. Qed.

Lemma safe_ret : safe (ret tt).
Proof. intros w H. split; [reflexivity | exact H]. Qed.

Lemma safe_seq (m k : M unit) : safe m -> safe k -> safe (m ;; k).
Proof.
  intros Hm Hk w H. destruct (Hm w H) as [E1 W1].
  destruct (Hk _ W1) as [E2 W2].
  apply safe_intro with (w' := after k (after m w)); [|exact W2].
  unfold bind. now rewrite E1.
Qed.

Lemma safe_when (b : bool) (m : M unit) : safe m -> safe (when b m).
Proof. destruct b; [trivial | intros _; apply safe_ret]. Qed.

Lemma safe_read {A} (f : Dropdown -> A) (k : A -> M unit) :
  (forall a, safe (k a)) -> safe (a <- read f ;; k a).
Proof.
  intros Hk w H. destruct (Hk (f (this w)) w H) as [E W].
  apply safe_intro with (w' := after (k (f (this w))) w); [exact E | exact W].
Qed.

Lemma safe_readPage {A} (f : Page -> A) (k : A -> M unit) :
  (forall a, safe (k a)) -> safe (a <- readPage f ;; k a).
Proof.
  intros Hk w H. destruct (Hk (f (page w)) w H) as [E W].
  apply safe_intro with (w' := after (k (f (page w))) w); [exact E | exact W].
Qed.

Lemma safe_write (f : Dropdown -> Dropdown) :
  (forall d, container (f d) = container d) -> safe (write f).
Proof.
  intros Hf w [T K]. split; [reflexivity|].
  unfold after, write, wellFormed, documentTidy, containerKnown; cbn.
  rewrite Hf. split; assumption.
Qed.

Lemma safe_writePage (f : Page -> Page) :
  (forall p, attached (f p) = attached p) ->
  (forall p, map fst (elements (f p)) = map fst (elements p)) ->
  safe (writePage f).
Proof.
  intros Ha He w [T K]. split; [reflexivity|].
  unfold after, writePage, wellFormed, documentTidy, containerKnown; cbn.
  rewrite Ha, He. split; assumption.
Qed.

Lemma map_fst_setContent id c p :
  map fst (elements (Dom.setContent id c p)) = map fst (elements p).
Proof.
  destruct p as [es att hp cl kl rl ts sel fd kn cat]; cbn.
  induction es as [|[k x] es IH]; cbn; [reflexivity|].
  destruct (Nat.eqb_spec k id); cbn; congruence.
Qed.

Lemma safe_setContent id c : safe (writePage (Dom.setContent id c)).
Proof.
  apply safe_writePage; intros p; [reflexivity | apply map_fst_setContent].
Qed.

Lemma tidy_none_nil (w : World) :
  documentTidy w -> container (this w) = None -> attached (page w) = [].
Proof.
  intros T N. destruct (attached (page w)) as [|c' a] eqn:E; [reflexivity|].
  specialize (T c'). rewrite E, N in T. discriminate T. now left.
Qed.

Lemma tidy_filter (w : World) id :
  documentTidy w -> container (this w) = Some id ->
  filter (fun x => negb (Nat.eqb x id)) (attached (page w)) = [].
Proof.
  intros T S. 
  destruct (filter _ _) as [|c' a] eqn:E; [reflexivity|].
  assert (I : In c' (filter (fun x => negb (Nat.eqb x id)) (attached (page w))))
    by (rewrite E; now left).
  apply filter_In in I as [I1 I2]. apply T in I1. rewrite S in I1.
  injection I1 as ->. now rewrite Nat.eqb_refl in I2.
Qed.

Lemma hide_normal (w : World) : hide w = Normal tt (after hide w).
Proof. open_world w. unfold after, hide. destruct c; reflexivity. Qed.

Lemma safe_hide : safe hide.
Proof.
  intros w [T K]. split; [apply hide_normal|].
  destruct (container (this w)) as [id|] eqn:E.
  - pose proof (tidy_filter w id T E) as F.
    open_world w. subst c. unfold after, hide. cbn in *. rewrite F.
    split; intros x; cbn; [tauto | discriminate].
  - open_world w. subst c. exact (conj T K).
Qed.

Lemma safe_hideRecheck : safe hideRecheck.
Proof.
  intros w [T K]. 
  destruct (container (this w)) as [id|] eqn:E.
  - pose proof (tidy_filter w id T E) as F.
    open_world w. subst c. unfold after, hideRecheck. cbn in *. rewrite F.
    split; [reflexivity|]. split; intros x; cbn; [tauto | discriminate].
  - pose proof (tidy_none_nil w T E) as F.
    open_world w. subst c att. unfold after, hideRecheck. cbn in *. 
    split; [reflexivity|]. split; intros x; cbn; [tauto | discriminate].
Qed.

Lemma safe_ensureContainer : safe ensureContainer.
Proof.
  intros w [T K]. 
  destruct (container (this w)) as [id|] eqn:E.
  - open_world w. subst c. split; [reflexivity | exact (conj T K)].
  - pose proof (tidy_none_nil w T E) as F.
    open_world w. subst c att. unfold after, ensureContainer. cbn.
    destruct (appendTo o); [|destruct hp]; cbn;
      (split; [reflexivity|]);
      (split; intros x; cbn; intros H; 
        [ try (destruct H as [<-|[]]; reflexivity); try contradiction
        | injection H as <-; now left ]).
Qed.

Lemma safe_selectBang text : safe (selectBang text).
Proof.
  unfold selectBang. apply safe_read; intros o.
  apply safe_seq; [|apply safe_hide].
  apply safe_when, safe_writePage; intros p; reflexivity.
Qed.

Lemma itemAt_in_range (l : list BangItem) (i : Z) :
  0 <= i < Z.of_nat (length l) -> exists b, itemAt l i = Some b.
Proof.
  intros H. unfold itemAt.
  destruct (Z.ltb_spec i 0); [lia|].
  destruct (nth_error l (Z.to_nat i)) as [b|] eqn:E; [now exists b|].
  apply nth_error_None in E. lia.
Qed.

Lemma safe_selectTopOption : safe selectTopOption.
Proof.
  unfold selectTopOption. apply safe_read; intros l.
  destruct (Z.ltb_spec 0 (Z.of_nat (length l))); [|apply safe_ret].
  destruct (itemAt_in_range l 0) as [b ->]; [lia|]. apply safe_selectBang.
Qed.

Lemma safe_keyboard b : safe (Dom.setKeyboardNavigationActive b).
Proof. apply safe_writePage; intros p; reflexivity. Qed.

Lemma safe_footer b : safe (Dom.toggleFooterInteractions b).
Proof. apply safe_writePage; intros p; reflexivity. Qed.

Lemma safe_setTimeout tm : safe (Dom.setTimeout tm).
Proof. apply safe_writePage; intros p; reflexivity. Qed.

Lemma safe_selectCurrent : safe selectCurrent.
Proof.
  unfold selectCurrent. apply safe_seq; [apply safe_keyboard|].
  apply safe_read; intros i. apply safe_read; intros l.
  destruct ((0 <=? i) && (i <? Z.of_nat (length l)))%bool eqn:G;
    [|apply safe_hide].
  apply andb_true_iff in G as [G1 G2].
  apply Z.leb_le in G1. apply Z.ltb_lt in G2.
  destruct (itemAt_in_range l i) as [b ->]; [lia|]. apply safe_selectBang.
Qed.

Lemma safe_clear : safe clear.
Proof.
  unfold clear. apply safe_read; intros c. apply safe_seq.
  - destruct c; [apply safe_setContent | apply safe_ret].
  - apply safe_write; reflexivity.
Qed.

Lemma safe_renderItems items callbacks : safe (renderItems items callbacks).
Proof.
  unfold renderItems. apply safe_seq; [apply safe_clear|].
  apply safe_read; intros [id|]; [|apply safe_ret].
  destruct (Nat.eqb _ _); apply safe_setContent.
Qed.

Lemma safe_populate : safe populate.
Proof.
  unfold populate. apply safe_read; intros c. apply safe_read; intros l.
  apply safe_when, safe_renderItems.
Qed.

Lemma safe_show query : safe (show query).
Proof.
  unfold show. apply safe_seq; [apply safe_ensureContainer|].
  apply safe_read; intros [id|]; [|apply safe_ret].
  destruct (JsString.includes _ _); [apply safe_hide|].
  apply safe_seq; [apply safe_write; reflexivity|].
  destruct (JsString.falsy _); [apply safe_setContent|].
  apply safe_readPage; intros cat. apply safe_read; intros o.
  apply safe_seq; [apply safe_write; reflexivity|].
  apply safe_seq; [apply safe_populate|].
  apply safe_read; intros c'. apply safe_when, safe_footer.
Qed.

Lemma safe_setFilteredBangs items : safe (setFilteredBangs items).
Proof.
  unfold setFilteredBangs. apply safe_seq; [apply safe_write; reflexivity|].
  apply safe_read; intros v. apply safe_read; intros c.
  apply safe_when, safe_populate.
Qed.

Lemma safe_navigate d : safe (navigate d).
Proof.
  unfold navigate. apply safe_seq; [apply safe_keyboard|].
  apply safe_read; intros l. apply safe_read; intros i.
  apply safe_write; reflexivity.
Qed.

Lemma dispose_normal (w : World) : dispose w = Normal tt (after dispose w).
Proof.
  open_world w. unfold after, dispose, hide. cbn.
  destruct c, rh; reflexivity.
Qed.

Lemma safe_dispose : safe dispose.
Proof.
  intros w [T K]. split; [apply dispose_normal|].
  destruct (container (this w)) as [id|] eqn:E.
  - pose proof (tidy_filter w id T E) as F.
    open_world w. subst c. unfold after, dispose, hide. cbn in *.
    rewrite F. destruct rh; cbn; (split; intros x; cbn; [tauto | discriminate]).
  - pose proof (tidy_none_nil w T E) as F.
    open_world w. subst c att. unfold after, dispose, hide. cbn.
    destruct rh; cbn; (split; intros x; cbn; [tauto | discriminate]).
Qed.

Lemma safe_documentClickHandler target : safe (documentClickHandler target).
Proof.
  unfold documentClickHandler. apply safe_read; intros v.
  destruct (negb v); [apply safe_ret|]. apply safe_read; intros c.
  destruct (_ && _)%bool; [|apply safe_ret].
  apply safe_seq; [apply safe_hide | apply safe_setTimeout].
Qed.

Lemma safe_outsideClickRecheck : safe outsideClickRecheck.
Proof.
  unfold outsideClickRecheck. apply safe_read; intros v.
  apply safe_when, safe_hide.
Qed.

Lemma safe_tabKeyHandler key : safe (tabKeyHandler key).
Proof.
  unfold tabKeyHandler. apply safe_read; intros v. apply safe_read; intros l.
  destruct (_ && _)%bool; [|apply safe_ret].
  apply safe_read; intros i. apply safe_seq; [|apply safe_hide].
  destruct (0 <=? i); [apply safe_selectCurrent | apply safe_selectTopOption].
Qed.

Lemma safe_onClick index : safe (onClick index).
Proof.
  unfold onClick. apply safe_seq; [apply safe_write; reflexivity|].
  apply safe_selectCurrent.
Qed.

Lemma safe_onHover index : safe (onHover index).
Proof.
  unfold onHover. apply safe_read; intros c. apply safe_readPage; intros p.
  apply safe_read; intros i. apply safe_when, safe_write; reflexivity.
Qed.

Lemma safe_onLeave index : safe (onLeave index).
Proof.
  unfold onLeave. apply safe_read; intros c. apply safe_readPage; intros p.
  apply safe_read; intros i. apply safe_when, safe_write; reflexivity.
Qed.

Lemma safe_fire tm : safe (fire tm).
Proof. destruct tm; [apply safe_hideRecheck | apply safe_outsideClickRecheck]. Qed.

Lemma safe_dispatch e : safe (dispatch e).
Proof.
  destruct e as [target|key| |c index|c index|n]; cbn [dispatch].
  - apply safe_readPage; intros p. destruct (canLand target p); [|apply safe_ret].
    apply safe_seq.
    + destruct target; try apply safe_ret. apply safe_onClick.
    + apply safe_readPage; intros l. apply safe_when, safe_documentClickHandler.
  - apply safe_readPage; intros l. apply safe_when, safe_tabKeyHandler.
  - apply safe_readPage; intros l. apply safe_when, safe_ret.
  - apply safe_readPage; intros p. apply safe_when, safe_onHover.
  - apply safe_readPage; intros p. apply safe_when, safe_onLeave.
  - apply safe_readPage; intros ts. destruct (nth_error ts n); [|apply safe_ret].
    apply safe_seq; [|apply safe_fire].
    apply safe_writePage; intros p; reflexivity.
Qed.

Lemma safe_call c : safe (call c).
Proof.
  destruct c; cbn [call].
  - apply safe_show.
  - apply safe_hide.
  - apply safe_setFilteredBangs.
  - unfold setSelectedIndex. apply safe_write; reflexivity.
  - apply safe_selectCurrent.
  - apply safe_selectTopOption.
  - apply safe_navigate.
  - apply safe_navigate.
  - apply safe_dispose.
  - apply safe_renderItems.
Qed.

Lemma safe_step st : safe (step st).
Proof. destruct st; [apply safe_call | apply safe_dispatch]. Qed.


Lemma construct_wellFormed o hp cat : wellFormed (construct o hp cat).
Proof. split; intros x; cbn; [tauto | discriminate]. Qed.


Lemma after_seq (m k : M unit) (w : World) :
  safe m -> wellFormed w -> after (m ;; k) w = after k (after m w).
Proof.
  intros Hm W. destruct (Hm w W) as [E _].
  unfold after at 1, bind. now rewrite E.
Qed.

Lemma after_run_app (l1 l2 : list Step) (w : World) :
  wellFormed w ->
  after (run (l1 ++ l2)%list) w = after (run l2) (after (run l1) w).
Proof.
  revert w. induction l1 as [|st l1 IH]; intros w W; cbn [run app].
  - reflexivity.
  - rewrite !after_seq by (apply safe_step || exact W).
    apply IH, safe_step, W.
Qed.

Lemma reachable_run (w : World) (l : list Step) :
  reachable w -> reachable (after (run l) w).
Proof.
  intros (o & hp & cat & l0 & ->). exists o, hp, cat, (l0 ++ l)%list.
  symmetry. apply after_run_app, construct_wellFormed.
Qed.
End Facts.

(* ===================================================================== *)
(** * Selection by keyboard *)
(* ===================================================================== *)

Section Selection.
Context {C : Collaborators}.

Lemma selectBang_shown (w : World) (id : nat) (text : string) :
  container (this w) = Some id ->
  onSelectBang (options (this w)) = true ->
  exists w', selectBang text w = Normal tt w' /\
    selections (page w') = (selections (page w) ++ [text])%list /\
    closed w' /\ selectedIndex (this w') = -1 /\
    ~ In id (attached (page w')).
Proof.
  intros Hc Ho. open_world w. subst c. unfold selectBang, hide. js_run.
  rewrite Ho. js_run. eexists. split; [reflexivity|]. cbn.
  repeat split. intros I. apply filter_In in I as [_ I].
  now rewrite Nat.eqb_refl in I.
Qed.

Lemma hide_closes (w : World) :
  closed w -> hide w = Normal tt w.
Proof. intros [Hc _]. open_world w. subst c. reflexivity. Qed.

(** C4: on a shown surface with candidates and nothing selected, Tab
    delivers the trigger of the first candidate to [onSelectBang], and
    afterwards the machine is closed and the surface is out of the
    document. *)
Theorem tab_selects_top_candidate
    (w : World) (id : nat) (top : BangItem) (rest : list BangItem) :
  keydownListener (page w) = true ->
  container (this w) = Some id ->
  isVisible (this w) = true ->
  filteredBangs (this w) = top :: rest ->
  selectedIndex (this w) < 0 ->
  onSelectBang (options (this w)) = true ->
  exists w', dispatch (KeyDown "Tab") w = Normal tt w' /\
    selections (page w') = (selections (page w) ++ [t top])%list /\
    closed w' /\ selectedIndex (this w') = -1 /\
    ~ In id (attached (page w')).
Proof.
  intros Hk Hc Hv Hl Hi Ho. open_world w. subst c v l kl.
  unfold dispatch, tabKeyHandler, selectTopOption, selectBang, hide.
  js_run. destruct (Z.leb_spec 0 i); [lia|]. js_run. rewrite Ho. js_run.
  eexists. split; [reflexivity|]. cbn. repeat split.
  intros I. apply filter_In in I as [_ I]. now rewrite Nat.eqb_refl in I.
Qed.

(** C5: on a shown surface whose selected index points at a candidate,
    Tab and Enter both deliver exactly that candidate's trigger to
    [onSelectBang], and afterwards the machine is closed and the surface is
    out of the document. *)
Theorem tab_or_enter_selects_current
    (w : World) (id : nat) (bang : BangItem) :
  keydownListener (page w) = true ->
  container (this w) = Some id ->
  isVisible (this w) = true ->
  0 <= selectedIndex (this w) ->
  itemAt (filteredBangs (this w)) (selectedIndex (this w)) = Some bang ->
  onSelectBang (options (this w)) = true ->
  exists w',
    dispatch (KeyDown "Tab") w = Normal tt w' /\
    enterKeyHandler w = Normal tt w' /\
    selections (page w') = (selections (page w) ++ [t bang])%list /\
    closed w' /\ selectedIndex (this w') = -1 /\
    ~ In id (attached (page w')).
Proof.
  intros Hk Hc Hv Hi Hb Ho.
  assert (Hlen : selectedIndex (this w)
                 < Z.of_nat (length (filteredBangs (this w)))).
  { unfold itemAt in Hb.
    destruct (Z.ltb_spec (selectedIndex (this w)) 0); [discriminate|].
    assert (N : nth_error (filteredBangs (this w))
                  (Z.to_nat (selectedIndex (this w))) <> None) by congruence.
    apply nth_error_Some in N. lia. }
  pose (w1 := mkWorld (this w) (Dom.withKeyboardNavigation true (page w))).
  destruct (selectBang_shown w1 id (t bang) Hc Ho) as (w' & E & Rest).
  assert (Hcur : selectCurrent w = Normal tt w').
  { unfold selectCurrent, bind, Dom.setKeyboardNavigationActive, writePage, read.
    fold w1. cbn [this w1].
    destruct (Z.leb_spec 0 (selectedIndex (this w))); [|lia].
    destruct (Z.ltb_spec (selectedIndex (this w))
                (Z.of_nat (length (filteredBangs (this w))))); [|lia].
    cbn [andb]. rewrite Hb. exact E. }
  exists w'. split; [|split; [exact Hcur | exact Rest]].
  unfold dispatch, bind, readPage, when. rewrite Hk.
  unfold tabKeyHandler, bind, read. rewrite Hv.
  replace (String.eqb "Tab" "Tab") with true by reflexivity.
  destruct (Z.ltb_spec 0 (Z.of_nat (length (filteredBangs (this w))))); [|lia].
  cbn [andb]. destruct (Z.leb_spec 0 (selectedIndex (this w))); [|lia].
  rewrite Hcur. apply hide_closes, Rest.
Qed.

End Selection.

(* ===================================================================== *)
(** * Guards of the selection methods *)
(* ===================================================================== *)

Section Guards.
Context {C : Collaborators}.

Lemma selectCurrent_normal (w : World) :
  selectCurrent w = Normal tt (after selectCurrent w).
Proof.
  open_world w. unfold after, selectCurrent. js_run.
  destruct ((0 <=? i) && (i <? Z.of_nat (length l)))%bool eqn:G.
  - apply andb_true_iff in G as [G1 G2].
    apply Z.leb_le in G1. apply Z.ltb_lt in G2.
    destruct (itemAt_in_range l i) as [b ->]; [lia|].
    unfold selectBang, hide. js_run. destruct (onSelectBang o), c; reflexivity.
  - unfold hide. js_run. destruct c; reflexivity.
Qed.

Lemma selectTopOption_normal (w : World) :
  selectTopOption w = Normal tt (after selectTopOption w).
Proof.
  open_world w. unfold after, selectTopOption. js_run.
  destruct l as [|b l]; [reflexivity|]. js_run.
  unfold selectBang, hide. js_run. destruct (onSelectBang o), c; reflexivity.
Qed.

Lemma selectCurrent_out_of_range (w : World) :
  ~ (0 <= selectedIndex (this w)
       < Z.of_nat (length (filteredBangs (this w)))) ->
  selectCurrent w =
    hide (mkWorld (this w) (Dom.withKeyboardNavigation true (page w))).
Proof.
  intros G. open_world w. unfold selectCurrent. js_run.
  destruct (Z.leb_spec 0 i); destruct (Z.ltb_spec i (Z.of_nat (length l)));
    try lia; reflexivity.
Qed.

(** C9: [selectCurrent] and [selectTopOption] never read past the
    candidate list.  With the selected index out of range
    [selectCurrent] delivers nothing and removes the surface; with no
    candidates [selectTopOption] does nothing at all. *)
Theorem selection_is_bounds_guarded (w : World) :
  throws selectCurrent w = false /\
  throws selectTopOption w = false /\
  (~ (0 <= selectedIndex (this w)
        < Z.of_nat (length (filteredBangs (this w)))) ->
   let w' := after selectCurrent w in
   selections (page w') = selections (page w) /\
   container (this w') = None /\
   (forall id, container (this w) = Some id ->
               closed w' /\ ~ In id (attached (page w')))) /\
  (filteredBangs (this w) = [] -> selectTopOption w = Normal tt w).
Proof.
  split; [|split; [|split]].
  - unfold throws. now rewrite selectCurrent_normal.
  - unfold throws. now rewrite selectTopOption_normal.
  - intros G w'. subst w'. unfold after.
    rewrite (selectCurrent_out_of_range w G).
    open_world w. unfold hide. js_run. destruct c as [id|]; js_run.
    + split; [reflexivity|]. split; [reflexivity|].
      intros id' [= <-]. split; [split; reflexivity|].
      intros I. apply filter_In in I as [_ I].
      now rewrite Nat.eqb_refl in I.
    + split; [reflexivity|]. split; [reflexivity|]. discriminate.
  - intros E. open_world w. subst l. reflexivity.
Qed.

End Guards.

(* ===================================================================== *)
(** * Opening the surface *)
(* ===================================================================== *)

Section Opening.
Context {C : Collaborators}.

Lemma contentOf_setContent (id : nat) (c : Content) (p : Page) :
  In id (map fst (elements p)) ->
  Dom.contentOf id (Dom.setContent id c p) = c.
Proof.
  destruct p as [es att hp cl kl rl ts sel fd kn cat].
  unfold Dom.contentOf, Dom.setContent. cbn.
  induction es as [|[k x] es IH]; cbn; [tauto|].
  destruct (Nat.eqb_spec k id) as [->|N]; cbn.
  - now rewrite Nat.eqb_refl.
  - destruct (Nat.eqb_spec k id); [contradiction|].
    intros [E|I]; [congruence | now apply IH].
Qed.

Lemma prefix_unit (c a : ascii) (q : string) :
  String.prefix (String c EmptyString) (String a q) = true -> c = a.
Proof.
  unfold String.prefix. destruct (ascii_dec c a); [trivial | discriminate].
Qed.

Lemma includes_space_whitespace (query : string) :
  JsString.includes " " query = true -> JsString.has_whitespace query = true.
Proof.
  induction query as [|a q IH]; [discriminate|].
  change (JsString.includes " " (String a q))
    with (String.prefix " " (String a q) || JsString.includes " " q)%bool.
  change (JsString.has_whitespace (String a q))
    with (JsString.is_space a || JsString.has_whitespace q)%bool.
  intros H. apply orb_true_iff in H as [H|H].
  - apply prefix_unit in H. subst a. reflexivity.
  - rewrite (IH H). apply orb_true_r.
Qed.


End Opening.

(* ===================================================================== *)
(** * Closing and disposal *)
(* ===================================================================== *)

Section Disposal.
Context {C : Collaborators}.

Lemma hide_resets (w : World) (id : nat) :
  container (this w) = Some id ->
  closed (after hide w) /\ selectedIndex (this (after hide w)) = -1 /\
  ~ In id (attached (page (after hide w))).
Proof.
  intros E. open_world w. subst c. unfold after, hide. js_run.
  repeat split. intros I. apply filter_In in I as [_ I].
  now rewrite Nat.eqb_refl in I.
Qed.

(** [hide] never touches the candidate list. *)
Lemma hide_keeps_candidates (w : World) :
  filteredBangs (this (after hide w)) = filteredBangs (this w).
Proof. open_world w. unfold after, hide. js_run. destruct c; reflexivity. Qed.

(** Without a container [hide] returns at once, whatever [isVisible] is. *)
Lemma hide_without_container (w : World) :
  container (this w) = None -> hide w = Normal tt w.
Proof. intros E. open_world w. subst c. reflexivity. Qed.

Lemma dispose_disposed (w : World) :
  wellFormed w -> disposed (after dispose w).
Proof.
  intros [T K]. destruct (container (this w)) as [id|] eqn:E.
  - pose proof (tidy_filter w id T E) as F.
    open_world w. subst c. unfold after, dispose, hide. js_run.
    cbn in F. rewrite F. destruct rh; js_run; repeat split.
  - pose proof (tidy_none_nil w T E) as F.
    open_world w. subst c att. unfold after, dispose, hide. js_run.
    destruct rh; js_run; repeat split.
Qed.

Lemma dispose_idempotent (w : World) :
  after dispose (after dispose w) = after dispose w.
Proof.
  open_world w. unfold after, dispose, hide. js_run.
  destruct c, rh; reflexivity.
Qed.

(** Disposal closes the machine when [isVisible] was not left behind
    without a container. *)
Lemma dispose_closes (w : World) :
  (isVisible (this w) = true -> container (this w) <> None) ->
  closed (after dispose w).
Proof.
  intros H. open_world w. unfold after, dispose, hide. js_run.
  destruct c as [id|]; [destruct rh; js_run; split; reflexivity|].
  destruct v; [now exfalso; apply H|].
  destruct rh; js_run; split; reflexivity.
Qed.

Lemma dispose_unsubscribes (w : World) :
  resizeListener (page w) = resizeHandler (this w) ->
  clickListener (page (after dispose w)) = false /\
  keydownListener (page (after dispose w)) = false /\
  resizeListener (page (after dispose w)) = false.
Proof.
  intros H. open_world w. subst rl. unfold after, dispose, hide. js_run.
  destruct c, rh; js_run; repeat split.
Qed.




End Disposal.

(* ===================================================================== *)
(** * What a closed surface leaves behind *)
(* ===================================================================== *)

(** C1, evaluated on the code.  First run: the user types [!g], clicks
    outside, and opens the surface again on the empty partial.  The click
    closes the surface, but the candidates of the first session are still
    in [filteredBangs] in the prompt state of the second one, and Tab there
    delivers the first of them.  Second run: the surface is closed and
    opened again before the timer of [hide] fires; the timer then takes the
    new container away and leaves [isVisible] set, and the next outside
    click finds no container and resets nothing. *)
Theorem candidates_survive_closing :
  let closedByClick :=
    after (run [Api (Show "g"); Async (Click Elsewhere)]) Sample.fresh in
  let reopened := after (show "") closedByClick in
  let stuck :=
    after (run (Sample.overtaken ++ [Async (Click Elsewhere)])%list)
          Sample.fresh in
  closed closedByClick /\
  filteredBangs (this closedByClick)
    = [Sample.google; Sample.github; Sample.images] /\
  filteredBangs (this reopened)
    = [Sample.google; Sample.github; Sample.images] /\
  selections (page (after (dispatch (KeyDown "Tab")) reopened)) = ["g"] /\
  container (this stuck) = None /\ isVisible (this stuck) = true.
Proof. vm_compute. repeat split. Qed.

(** C3, evaluated on the code.  The surface is closed and opened again
    before the timer of [hide] fires, the timer fires, and [dispose] is
    called twice.  Nothing throws, the container is [null], the candidate
    list is empty and the three listeners are gone, but [isVisible] is
    still [true] and the footer is still switched off: [hide] inside
    [dispose] found no container and returned before resetting them. *)
Theorem dispose_leaves_isVisible_set :
  let before := after (run Sample.overtaken) Sample.fresh in
  let w := after (run [Api Dispose; Api Dispose]) before in
  throws (run [Api Dispose; Api Dispose]) before = false /\
  container (this w) = None /\
  filteredBangs (this w) = [] /\
  clickListener (page w) = false /\
  keydownListener (page w) = false /\
  resizeListener (page w) = false /\
  isVisible (this w) = true /\
  footerDisabled (page w) = true.
Proof. vm_compute. repeat split. Qed.


(** C7, evaluated on the code.  The user types [!g] and deletes the [g]:
    [show("g")], then [show("")].  The surface is in the document and
    shows the prompt and no row, but [show] returned right after
    [showMessage]: the candidate list is not empty, it still holds the
    three candidates for ["g"], and Tab on the prompt hands the first of
    them to [onSelectBang]. *)
Theorem prompt_keeps_stale_candidates :
  let w := after (run [Api (Show "g"); Api (Show "")]) Sample.fresh in
  throws (run [Api (Show "g"); Api (Show "")]) Sample.fresh = false /\
  container (this w) = Some 0%nat /\
  isVisible (this w) = true /\
  attached (page w) = [0%nat] /\
  Dom.contentOf 0 (page w) = Message "Start typing to search for bangs..." /\
  filteredBangs (this w) = [Sample.google; Sample.github; Sample.images] /\
  selections (page w) = [] /\
  selections (page (after (dispatch (KeyDown "Tab")) w)) = ["g"].
Proof. vm_compute. repeat split. Qed.

(* ===================================================================== *)
(** * The match engine *)
(* ===================================================================== *)

Section Matching.

Lemma insert_by_In {A} (le : A -> A -> bool) (x y : A) (l : list A) :
  In y (MatchEngine.insert_by le x l) <-> y = x \/ In y l.
Proof.
  induction l as [|z l IH]; simpl.
  - intuition congruence.
  - destruct (le x z); simpl; rewrite ?IH; intuition congruence.
Qed.

Lemma sort_by_In {A} (le : A -> A -> bool) (y : A) (l : list A) :
  In y (MatchEngine.sort_by le l) <-> In y l.
Proof.
  induction l as [|x l IH]; simpl.
  - tauto.
  - rewrite insert_by_In, IH. intuition congruence.
Qed.

Lemma In_firstn {A} (n : nat) (x : A) (l : list A) :
  In x (firstn n l) -> In x l.
Proof.
  revert l. induction n as [|n IH]; intros [|y l]; simpl; try tauto.
  intros [E|I]; [now left | right; now apply IH].
Qed.

Lemma show_stores_match {C : Collaborators} (w : World) (query : string) :
  JsString.includes " " query = false ->
  JsString.falsy query = false ->
  filteredBangs (this (after (show query) w))
    = filterAndSortBangs (catalog (page w)) query (maxItems (options (this w))).
Proof.
  intros H1 H2. open_world w.
  unfold after, show, ensureContainer, populate, renderItems, clear. js_run.
  destruct c as [id|]; js_run.
  - rewrite H1, H2. js_run.
    destruct (Nat.eqb _ _); reflexivity.
  - destruct (appendTo o); [|destruct hp]; js_run; rewrite H1, H2; js_run;
      destruct (Nat.eqb _ _); reflexivity.
Qed.

(** C8: the result of the match engine is never longer than [maxItems],
    and each of its items is an item of the catalog whose trigger equals
    the partial or starts with it, or whose service name contains it
    (compared without regard to case); this result is the list [show]
    stores for display. *)
Theorem match_is_capped_and_sound
    (cat : list BangItem) (partial : string) (cap : nat) :
  let result := MatchEngine.filterAndSortBangs cat partial cap in
  (length result <= cap)%nat /\
  (forall b, In b result ->
     In b cat /\
     (MatchEngine.norm (t b) = MatchEngine.norm partial \/
      JsString.startsWith (MatchEngine.norm partial) (MatchEngine.norm (t b)) = true \/
      JsString.includes (MatchEngine.norm partial) (MatchEngine.norm (s b)) = true)) /\
  (forall w : World,
     catalog (page w) = cat -> maxItems (options (this w)) = cap ->
     JsString.includes " " partial = false ->
     JsString.falsy partial = false ->
     filteredBangs (this (after (show partial) w)) = result).
Proof.
  intros result. subst result. split; [|split].
  - unfold MatchEngine.filterAndSortBangs.
    destruct (_ || _)%bool; [simpl; lia | apply firstn_le_length].
  - intros b. unfold MatchEngine.filterAndSortBangs.
    destruct (_ || _)%bool; [intros []|].
    intros I. apply In_firstn in I.
    apply in_app_or in I as [I|I]; [|apply in_app_or in I as [I|I]].
    + apply filter_In in I as [I M]. split; [exact I|]. left.
      now apply String.eqb_eq.
    + apply sort_by_In, filter_In in I as [I M]. split; [exact I|].
      apply andb_true_iff in M as [_ M]. right; left. exact M.
    + apply sort_by_In, filter_In in I as [I M]. split; [exact I|].
      apply andb_true_iff in M as [_ M]. right; right. exact M.
  - intros w <- <- H1 H2.
    exact (show_stores_match (C := SpecCollaborators) w partial H1 H2).
Qed.

End Matching.

(* ===================================================================== *)
(** * Inserting the selected bang into the input *)
(* ===================================================================== *)

Section Insertion.

Lemma prefix_unit_eqb (c a : ascii) (q : string) :
  String.prefix (String c EmptyString) (String a q) = Ascii.eqb a c.
Proof.
  unfold String.prefix. destruct (ascii_dec c a) as [->|N].
  - rewrite Ascii.eqb_refl. now destruct q.
  - symmetry. apply Ascii.eqb_neq. congruence.
Qed.

Lemma includes_unit_cons (c a : ascii) (q : string) :
  JsString.includes (String c EmptyString) (String a q)
    = (Ascii.eqb a c || JsString.includes (String c EmptyString) q)%bool.
Proof.
  change (JsString.includes (String c EmptyString) (String a q))
    with (String.prefix (String c EmptyString) (String a q)
          || JsString.includes (String c EmptyString) q)%bool.
  now rewrite prefix_unit_eqb.
Qed.

Lemma lastIndexFrom_absent (c : ascii) (v : string) (pos : nat) :
  JsString.includes (String c EmptyString) v = false ->
  JsString.lastIndexFrom c v pos = None.
Proof.
  revert pos. induction v as [|a v IH]; intros pos H; [reflexivity|].
  rewrite includes_unit_cons in H. apply orb_false_iff in H as [H1 H2].
  cbn [JsString.lastIndexFrom]. now rewrite (IH _ H2), H1.
Qed.

Lemma lastIndexFrom_last (c : ascii) (pre post : string) (pos : nat) :
  JsString.includes (String c EmptyString) post = false ->
  JsString.lastIndexFrom c (pre ++ String c post) pos
    = Some (pos + String.length pre)%nat.
Proof.
  intros H. revert pos. induction pre as [|a pre IH]; intros pos.
  - cbn [String.append JsString.lastIndexFrom String.length].
    rewrite (lastIndexFrom_absent c post _ H), Ascii.eqb_refl.
    f_equal. lia.
  - cbn [String.append JsString.lastIndexFrom String.length].
    rewrite IH. f_equal. lia.
Qed.

Lemma substring_through (c : ascii) (pre post : string) :
  String.substring 0 (S (String.length pre)) (pre ++ String c post)
    = pre ++ String c EmptyString.
Proof.
  induction pre as [|a pre IH].
  - cbn. now destruct post.
  - cbn [String.append String.length]. 
    change (String.substring 0 (S (S (String.length pre)))
              (String a (pre ++ String c post)))
      with (String a (String.substring 0 (S (String.length pre))
                        (pre ++ String c post))).
    now rewrite IH.
Qed.

Lemma split_at_last (c : ascii) (v : string) :
  JsString.includes (String c EmptyString) v = true ->
  exists pre post,
    v = pre ++ String c post /\
    JsString.includes (String c EmptyString) post = false.
Proof.
  induction v as [|a v IH]; [discriminate|].
  rewrite includes_unit_cons.
  destruct (JsString.includes (String c EmptyString) v) eqn:E.
  - intros _. destruct (IH eq_refl) as (pre & post & -> & H).
    exists (String a pre), post. split; [reflexivity | exact H].
  - rewrite orb_false_r. intros H. apply Ascii.eqb_eq in H. subst a.
    exists EmptyString, v. split; [reflexivity | exact E].
Qed.

Lemma append_assoc (a b c : string) : (a ++ b) ++ c = a ++ (b ++ c).
Proof. induction a as [|x a IH]; cbn; [reflexivity | now rewrite IH]. Qed.

(** C10: when the input holds a ['!'], the new value is the text up to
    and including the last ['!'], then the selected trigger, then one
    space; when it holds none, the input is left as it is. *)
Theorem handleBangSelection_rewrites
    (bangText : string) (i : SearchForm.SearchInput) :
  (forall pre post,
     SearchForm.value i = pre ++ "!" ++ post ->
     JsString.includes "!" post = false ->
     SearchForm.value (SearchForm.handleBangSelection bangText i)
       = pre ++ "!" ++ bangText ++ " ") /\
  (JsString.includes "!" (SearchForm.value i) = true ->
     exists pre post,
       SearchForm.value i = pre ++ "!" ++ post /\
       JsString.includes "!" post = false) /\
  (JsString.includes "!" (SearchForm.value i) = false ->
     SearchForm.handleBangSelection bangText i = i).
Proof.
  split; [|split].
  - intros pre post E H. unfold SearchForm.handleBangSelection.
    rewrite E. change ("!" ++ post) with (String "!"%char post).
    unfold JsString.lastIndexOf.
    rewrite (lastIndexFrom_last "!"%char pre post 0 H).
    cbn [Nat.add].
    destruct (Z.leb_spec 0 (Z.of_nat (String.length pre))); [|lia].
    cbn [SearchForm.value SearchForm.focus SearchForm.setValue].
    unfold JsString.substring0.
    replace (Z.to_nat (Z.of_nat (String.length pre) + 1))
      with (S (String.length pre)) by lia.
    rewrite substring_through, append_assoc. reflexivity.
  - intros H. destruct (split_at_last "!"%char _ H) as (pre & post & E & N).
    exists pre, post. split; [exact E | exact N].
  - intros H. unfold SearchForm.handleBangSelection, JsString.lastIndexOf.
    now rewrite (lastIndexFrom_absent "!"%char _ 0 H).
Qed.

End Insertion.

(* ===================================================================== *)
(** * The theorems at work on the sample worlds *)
(* ===================================================================== *)

Lemma listing_reachable : reachable Sample.listing.
Proof.
  exists Sample.userOptions, true, Sample.bangs, [Api (Show "g")]. reflexivity.
Defined.



Lemma tab_selects_top_candidate_witness :
  exists w', dispatch (KeyDown "Tab") Sample.listing = Normal tt w' /\
    selections (page w') = ["g"] /\
    closed w' /\ selectedIndex (this w') = -1 /\
    ~ In 0%nat (attached (page w')).
Proof.
  exact (tab_selects_top_candidate Sample.listing 0 Sample.google
           [Sample.github; Sample.images]
           eq_refl eq_refl eq_refl eq_refl eq_refl eq_refl).
Defined.

Lemma tab_or_enter_selects_current_witness :
  exists w',
    dispatch (KeyDown "Tab") Sample.navigating = Normal tt w' /\
    enterKeyHandler Sample.navigating = Normal tt w' /\
    selections (page w') = ["gh"] /\
    closed w' /\ selectedIndex (this w') = -1 /\
    ~ In 0%nat (attached (page w')).
Proof.
  refine (tab_or_enter_selects_current Sample.navigating 0 Sample.github
            eq_refl eq_refl eq_refl _ eq_refl eq_refl).
  vm_compute. discriminate.
Defined.


Lemma match_is_capped_and_sound_witness :
  (length (MatchEngine.filterAndSortBangs Sample.bangs "g" 2) <= 2)%nat /\
  filteredBangs (this (after (show "g") Sample.capped))
    = [Sample.google; Sample.github].
Proof.
  destruct (match_is_capped_and_sound Sample.bangs "g" 2) as (H1 & _ & H3).
  split; [exact H1|].
  exact (H3 Sample.capped eq_refl eq_refl eq_refl eq_refl).
Defined.

Lemma selection_is_bounds_guarded_witness :
  ~ (0 <= selectedIndex (this Sample.astray)
       < Z.of_nat (length (filteredBangs (this Sample.astray)))) /\
  selections (page (after selectCurrent Sample.astray))
    = selections (page Sample.astray) /\
  closed (after selectCurrent Sample.astray) /\
  selectTopOption Sample.fresh = Normal tt Sample.fresh.
Proof.
  assert (G : ~ (0 <= selectedIndex (this Sample.astray)
                   < Z.of_nat (length (filteredBangs (this Sample.astray)))))
    by (vm_compute; intros [_ H]; discriminate H).
  destruct (selection_is_bounds_guarded Sample.astray) as (_ & _ & H & _).
  destruct (H G) as (H1 & _ & H3).
  destruct (selection_is_bounds_guarded Sample.fresh) as (_ & _ & _ & H4).
  split; [exact G|]. split; [exact H1|].
  split; [exact (proj1 (H3 0%nat eq_refl)) | exact (H4 eq_refl)].
Defined.

Lemma handleBangSelection_rewrites_witness :
  SearchForm.value (SearchForm.handleBangSelection "gh" Sample.typed)
    = "cats !g dogs !gh ".
Proof.
  exact (proj1 (handleBangSelection_rewrites "gh" Sample.typed)
               "cats !g dogs " "gi" eq_refl eq_refl).
Defined.

(* ===================================================================== *)
(** * Rules for assertions *)
(* ===================================================================== *)

Section Triples.

Lemma triple_intro (P Q : World -> Prop) (m : M unit) :
  (forall w, P w -> exists w', m w = Normal tt w' /\ Q w') -> triple P m Q.
Proof.
  intros H w Pw. destruct (H w Pw) as (w' & E & Qw).
  unfold after. rewrite E. split; [reflexivity | exact Qw].
Qed.

Lemma triple_ret (P : World -> Prop) : triple P (ret tt) P.
Proof. intros w Pw. split; [reflexivity | exact Pw]. Qed.

Lemma triple_seq (P Q R : World -> Prop) (m k : M unit) :
  triple P m Q -> triple Q k R -> triple P (m ;; k) R.
Proof.
  intros Hm Hk. apply triple_intro. intros w Pw.
  destruct (Hm w Pw) as [E1 Qw]. destruct (Hk _ Qw) as [E2 Rw].
  exists (after k (after m w)). split; [|exact Rw].
  unfold bind. now rewrite E1.
Qed.

Lemma triple_weaken (P P' Q Q' : World -> Prop) (m : M unit) :
  (forall w, P' w -> P w) -> (forall w, Q w -> Q' w) ->
  triple P m Q -> triple P' m Q'.
Proof.
  intros HP HQ H w Pw. destruct (H w (HP w Pw)) as [E Qw].
  split; [exact E | exact (HQ _ Qw)].
Qed.

Lemma triple_when (P : World -> Prop) (b : bool) (m : M unit) :
  triple P m P -> triple P (when b m) P.
Proof. destruct b; [trivial | intros _; apply triple_ret]. Qed.

Lemma triple_read {A} (P Q : World -> Prop) (f : Dropdown -> A)
    (k : A -> M unit) :
  (forall a, triple (fun w => P w /\ f (this w) = a) (k a) Q) ->
  triple P (a <- read f ;; k a) Q.
Proof.
  intros Hk. apply triple_intro. intros w Pw.
  destruct (Hk (f (this w)) w (conj Pw eq_refl)) as [E Qw].
  exists (after (k (f (this w))) w). split; [exact E | exact Qw].
Qed.

Lemma triple_readPage {A} (P Q : World -> Prop) (f : Page -> A)
    (k : A -> M unit) :
  (forall a, triple (fun w => P w /\ f (page w) = a) (k a) Q) ->
  triple P (a <- readPage f ;; k a) Q.
Proof.
  intros Hk. apply triple_intro. intros w Pw.
  destruct (Hk (f (page w)) w (conj Pw eq_refl)) as [E Qw].
  exists (after (k (f (page w))) w). split; [exact E | exact Qw].
Qed.

Lemma triple_forget (P Q : World -> Prop) (X : World -> Prop) (m : M unit) :
  triple P m Q -> triple (fun w => P w /\ X w) m Q.
Proof. intros H. apply (triple_weaken P _ Q Q); try tauto. Qed.

Lemma triple_write (P Q : World -> Prop) (f : Dropdown -> Dropdown) :
  (forall w, P w -> Q (mkWorld (f (this w)) (page w))) -> triple P (write f) Q.
Proof. intros H w Pw. split; [reflexivity | exact (H w Pw)]. Qed.

Lemma triple_writePage (P Q : World -> Prop) (f : Page -> Page) :
  (forall w, P w -> Q (mkWorld (this w) (f (page w)))) ->
  triple P (writePage f) Q.
Proof. intros H w Pw. split; [reflexivity | exact (H w Pw)]. Qed.

Lemma triple_run {C : Collaborators} (P : World -> Prop) :
  (forall st, triple P (step st) P) -> forall l, triple P (run l) P.
Proof.
  intros H l. induction l as [|st l IH]; cbn [run]; [apply triple_ret|].
  apply triple_seq with (Q := P); [apply H | exact IH].
Qed.

End Triples.

(* ===================================================================== *)
(** * Coherence of the reachable worlds *)
(* ===================================================================== *)

Section Coherence.
Context {C : Collaborators}.

Lemma coherent_of_none (w : World) :
  wellFormed w -> resizeBalanced w -> container (this w) = None -> coherent w.
Proof.
  intros W B N. split; [exact W|]. split; [|split; [|exact B]].
  - intros H. contradiction.
  - intros id items H. rewrite N in H. discriminate.
Qed.

Lemma coherent_frame (w w' : World) :
  container (this w') = container (this w) ->
  isVisible (this w') = isVisible (this w) ->
  filteredBangs (this w') = filteredBangs (this w) ->
  resizeHandler (this w') = resizeHandler (this w) ->
  elements (page w') = elements (page w) ->
  attached (page w') = attached (page w) ->
  resizeListener (page w') = resizeListener (page w) ->
  coherent w -> coherent w'.
Proof.
  intros Hc Hv Hl Hr He Ha Hs ((T & K) & V & R & B).
  unfold coherent, wellFormed, documentTidy, containerKnown, containerVisible,
    rowsCurrent, resizeBalanced, Dom.contentOf in *.
  rewrite Hc, Hv, Hl, Hr, He, Ha, Hs.
  exact (conj (conj T K) (conj V (conj R B))).
Qed.

Lemma unrendered_frame (w w' : World) :
  container (this w') = container (this w) ->
  isVisible (this w') = isVisible (this w) ->
  resizeHandler (this w') = resizeHandler (this w) ->
  elements (page w') = elements (page w) ->
  attached (page w') = attached (page w) ->
  resizeListener (page w') = resizeListener (page w) ->
  unrendered w -> unrendered w'.
Proof.
  intros Hc Hv Hr He Ha Hs ((T & K) & V & B).
  unfold unrendered, wellFormed, documentTidy, containerKnown, containerVisible,
    resizeBalanced in *.
  rewrite Hc, Hv, Hr, He, Ha, Hs.
  exact (conj (conj T K) (conj V B)).
Qed.

Lemma coherent_unrendered (w : World) : coherent w -> unrendered w.
Proof. intros (W & V & _ & B). exact (conj W (conj V B)). Qed.

Lemma hide_leaves (w : World) :
  container (this (after hide w)) = None /\
  resizeListener (page (after hide w)) = resizeListener (page w) /\
  resizeHandler (this (after hide w)) = resizeHandler (this w).
Proof.
  open_world w. unfold after, hide. js_run. destruct c; js_run; repeat split.
Qed.

Lemma hide_coherent (w : World) :
  wellFormed w -> resizeBalanced w -> coherent (after hide w).
Proof.
  intros W B. destruct (hide_leaves w) as (N & L & H).
  apply coherent_of_none; [apply safe_hide, W | | exact N].
  unfold resizeBalanced in *. congruence.
Qed.

Lemma triple_hide (P : World -> Prop) :
  (forall w, P w -> wellFormed w /\ resizeBalanced w) ->
  triple P hide coherent.
Proof.
  intros H w Pw. destruct (H w Pw) as [W B].
  split; [apply hide_normal | now apply hide_coherent].
Qed.

Lemma coherent_hide : triple coherent hide coherent.
Proof. apply triple_hide. intros w (W & _ & _ & B). now split. Qed.

Lemma hideRecheck_leaves (w : World) :
  container (this (after hideRecheck w)) = None /\
  resizeListener (page (after hideRecheck w)) = resizeListener (page w) /\
  resizeHandler (this (after hideRecheck w)) = resizeHandler (this w).
Proof.
  open_world w. unfold after, hideRecheck. js_run. destruct c; js_run; repeat split.
Qed.

Lemma coherent_hideRecheck : triple coherent hideRecheck coherent.
Proof.
  intros w (W & _ & _ & B). destruct (safe_hideRecheck w W) as [E W'].
  split; [exact E|]. destruct (hideRecheck_leaves w) as (N & L & H).
  apply coherent_of_none; [exact W' | | exact N].
  unfold resizeBalanced in *. congruence.
Qed.

Lemma coherent_page (f : Page -> Page) :
  (forall p, elements (f p) = elements p) ->
  (forall p, attached (f p) = attached p) ->
  (forall p, resizeListener (f p) = resizeListener p) ->
  triple coherent (writePage f) coherent.
Proof.
  intros He Ha Hs. apply triple_writePage. intros w H.
  apply (coherent_frame w); cbn; auto.
Qed.

Lemma coherent_index (i : Z) : triple coherent (write (putSelectedIndex i)) coherent.
Proof.
  apply triple_write. intros w H. apply (coherent_frame w); cbn; auto.
Qed.

Lemma coherent_selectBang (text : string) :
  triple coherent (selectBang text) coherent.
Proof.
  unfold selectBang. apply triple_read; intros o. apply triple_forget.
  apply triple_seq with (Q := coherent); [|apply coherent_hide].
  apply triple_when, coherent_page; intros p; reflexivity.
Qed.

Lemma coherent_selectTopOption : triple coherent selectTopOption coherent.
Proof.
  unfold selectTopOption. apply triple_read; intros l. apply triple_forget.
  destruct (Z.ltb_spec 0 (Z.of_nat (length l))); [|apply triple_ret].
  destruct (itemAt_in_range l 0) as [b ->]; [lia|]. apply coherent_selectBang.
Qed.

Lemma coherent_selectCurrent : triple coherent selectCurrent coherent.
Proof.
  unfold selectCurrent. apply triple_seq with (Q := coherent).
  { apply coherent_page; intros p; reflexivity. }
  apply triple_read; intros i. apply triple_forget.
  apply triple_read; intros l. apply triple_forget.
  destruct ((0 <=? i) && (i <? Z.of_nat (length l)))%bool eqn:G;
    [|apply coherent_hide].
  apply andb_true_iff in G as [G1 G2].
  apply Z.leb_le in G1. apply Z.ltb_lt in G2.
  destruct (itemAt_in_range l i) as [b ->]; [lia|]. apply coherent_selectBang.
Qed.

(** What [populate] leaves when there is a container. *)
Lemma populate_some (w : World) (id : nat) :
  container (this w) = Some id ->
  populate w =
    Normal tt
      (mkWorld (putSelectedIndex (-1) (this w))
               (Dom.setContent id (rendering (filteredBangs (this w)))
                  (Dom.setContent id Blank (page w)))).
Proof.
  intros E. open_world w. subst c.
  unfold populate, renderItems, clear, rendering. js_run.
  destruct (Nat.eqb (length l) 0); reflexivity.
Qed.

Lemma populate_none (w : World) :
  container (this w) = None -> populate w = Normal tt w.
Proof. intros E. open_world w. subst c. reflexivity. Qed.

Lemma setContent_keeps (id : nat) (c : Content) (p : Page) :
  attached (Dom.setContent id c p) = attached p /\
  resizeListener (Dom.setContent id c p) = resizeListener p.
Proof. destruct p. split; reflexivity. Qed.

Lemma rendering_rows (l items : list BangItem) :
  rendering l = Results items -> items = l /\ items <> [].
Proof.
  unfold rendering. destruct l as [|b l]; cbn; [discriminate|].
  intros [= <-]. split; [reflexivity | discriminate].
Qed.

Lemma rendered_coherent (w : World) (id : nat) (shown : Content) :
  wellFormed w -> containerVisible w -> resizeBalanced w ->
  container (this w) = Some id ->
  (forall items, shown = Results items ->
                 items = filteredBangs (this w) /\ items <> []) ->
  forall (i : Z) (between : Content),
    coherent (mkWorld (putSelectedIndex i (this w))
                      (Dom.setContent id shown
                         (Dom.setContent id between (page w)))).
Proof.
  intros [T K] V B E R i between.
  assert (K2 : In id (map fst (elements (Dom.setContent id between (page w)))))
    by (rewrite map_fst_setContent; exact (K id E)).
  split; [split|split; [|split]].
  - intros c. cbn [this page container putSelectedIndex].
    rewrite !(proj1 (setContent_keeps _ _ _)). exact (T c).
  - intros c. cbn [this page container putSelectedIndex].
    rewrite !map_fst_setContent. exact (K c).
  - exact V.
  - intros c items. cbn [this page container filteredBangs putSelectedIndex].
    intros Hc Hs. rewrite E in Hc.
    injection Hc as <-. rewrite (contentOf_setContent id shown _ K2) in Hs.
    exact (R items Hs).
  - unfold resizeBalanced. cbn [this page resizeHandler putSelectedIndex].
    rewrite !(proj2 (setContent_keeps _ _ _)). exact B.
Qed.

Lemma unrendered_populate : triple unrendered populate coherent.
Proof.
  apply triple_intro. intros w (W & V & B).
  destruct (container (this w)) as [id|] eqn:E.
  - eexists. split; [exact (populate_some w id E)|].
    apply rendered_coherent; try assumption. apply rendering_rows.
  - exists w. split; [exact (populate_none w E)|].
    now apply coherent_of_none.
Qed.

Lemma coherent_setFilteredBangs (items : list BangItem) :
  triple coherent (setFilteredBangs items) coherent.
Proof.
  unfold setFilteredBangs. apply triple_seq with (Q := unrendered).
  - apply triple_write. intros w H.
    apply (unrendered_frame w); cbn; auto. now apply coherent_unrendered.
  - apply triple_intro. intros w U. unfold bind, read.
    destruct (container (this w)) as [id|] eqn:E.
    + destruct U as (W & V & B). rewrite (V ltac:(congruence)). cbn [andb isSome when].
      destruct (unrendered_populate w (conj W (conj V B))) as [E1 H1].
      eexists. split; [exact E1 | exact H1].
    + rewrite andb_false_r. exists w. split; [reflexivity|].
      destruct U as (W & V & B). now apply coherent_of_none.
Qed.

Lemma coherent_navigate (d : Z) : triple coherent (navigate d) coherent.
Proof.
  unfold navigate. apply triple_seq with (Q := coherent).
  { apply coherent_page; intros p; reflexivity. }
  apply triple_read; intros l. apply triple_forget.
  apply triple_read; intros i. apply triple_forget.
  apply coherent_index.
Qed.

Lemma ensureContainer_staged : triple coherent ensureContainer staged.
Proof.
  intros w (W & V & R & B). destruct (safe_ensureContainer w W) as [E W'].
  split; [exact E|]. clear E.
  destruct (container (this w)) as [id|] eqn:Ec.
  - assert (after ensureContainer w = w) as ->
      by (open_world w; subst c; reflexivity).
    split; [exact W|]. split; [exact R|]. split; [exact B|].
    rewrite Ec. discriminate.
  - revert W'. open_world w. subst c. unfold after, ensureContainer. js_run.
    destruct (appendTo o); [|destruct hp]; js_run; intros W';
      (split; [exact W'|]; split; [|split; [exact B | discriminate]];
       intros c items [= <-]; unfold Dom.contentOf; cbn;
       rewrite Nat.eqb_refl; discriminate).
Qed.

Lemma coherent_show (query : string) : triple coherent (show query) coherent.
Proof.
  unfold show. apply triple_seq with (Q := staged);
    [apply ensureContainer_staged|].
  apply triple_read; intros [id|].
  2:{ intros w [(_ & _ & _ & N) E]. contradiction. }
  destruct (JsString.includes " " query).
  { apply triple_hide. intros w [(W & _ & B & _) _]. now split. }
  apply triple_seq with
    (Q := fun w => unrendered w /\ rowsCurrent w /\ container (this w) = Some id).
  { apply triple_write. intros w [((T & K) & R & B & N) E].
    split; [|split; [exact R | exact E]].
    split; [exact (conj T K)|]. split; [intros _; reflexivity | exact B]. }
  destruct (JsString.falsy query).
  - apply triple_writePage. intros w ((W & V & B) & R & E).
    destruct W as [T K]. split; [split|split; [|split]].
    + intros c. cbn [this page]. rewrite (proj1 (setContent_keeps _ _ _)).
      exact (T c).
    + intros c. cbn [this page]. rewrite map_fst_setContent. exact (K c).
    + exact V.
    + intros c items. cbn [this page]. intros Hc Hs. rewrite E in Hc.
      injection Hc as <-.
      rewrite (contentOf_setContent id _ _ (K id E)) in Hs. discriminate.
    + unfold resizeBalanced. cbn [this page].
      rewrite (proj2 (setContent_keeps _ _ _)). exact B.
  - apply triple_readPage; intros cat. apply triple_forget.
    apply triple_read; intros o. apply triple_forget.
    apply triple_seq with (Q := unrendered).
    { apply triple_write. intros w (U & _ & _).
      apply (unrendered_frame w); cbn; auto. }
    apply triple_seq with (Q := coherent); [apply unrendered_populate|].
    apply triple_read; intros c'. apply triple_forget.
    apply triple_when, coherent_page; intros p; reflexivity.
Qed.

Lemma dispose_leaves (w : World) :
  container (this (after dispose w)) = None /\
  resizeHandler (this (after dispose w)) = false /\
  (resizeBalanced w -> resizeListener (page (after dispose w)) = false).
Proof.
  open_world w. unfold after, dispose, hide, resizeBalanced. js_run.
  destruct c, rh; js_run; repeat split; trivial.
Qed.

Lemma coherent_dispose : triple coherent dispose coherent.
Proof.
  intros w (W & _ & _ & B). destruct (safe_dispose w W) as [E W'].
  split; [exact E|]. destruct (dispose_leaves w) as (N & H & L).
  apply coherent_of_none; [exact W' | | exact N].
  unfold resizeBalanced. now rewrite H, (L B).
Qed.

Lemma coherent_documentClickHandler (target : Target) :
  triple coherent (documentClickHandler target) coherent.
Proof.
  unfold documentClickHandler. apply triple_read; intros v. apply triple_forget.
  destruct (negb v); [apply triple_ret|].
  apply triple_read; intros c. apply triple_forget.
  destruct (_ && _)%bool; [|apply triple_ret].
  apply triple_seq with (Q := coherent); [apply coherent_hide|].
  apply coherent_page; intros p; reflexivity.
Qed.

Lemma coherent_tabKeyHandler (key : string) :
  triple coherent (tabKeyHandler key) coherent.
Proof.
  unfold tabKeyHandler. apply triple_read; intros v. apply triple_forget.
  apply triple_read; intros l. apply triple_forget.
  destruct (_ && _)%bool; [|apply triple_ret].
  apply triple_read; intros i. apply triple_forget.
  apply triple_seq with (Q := coherent); [|apply coherent_hide].
  destruct (0 <=? i); [apply coherent_selectCurrent | apply coherent_selectTopOption].
Qed.

Lemma coherent_hover (index : Z) (f : Z -> Z) :
  triple coherent
    (c <- read container;; p <- readPage (fun p => p);; i <- read selectedIndex;;
     when (Dom.hasRow c index p) (write (putSelectedIndex (f i))))
    coherent.
Proof.
  apply triple_read; intros c. apply triple_forget.
  apply triple_readPage; intros p. apply triple_forget.
  apply triple_read; intros i. apply triple_forget.
  apply triple_when, coherent_index.
Qed.

Lemma coherent_dispatch (e : Event) : triple coherent (dispatch e) coherent.
Proof.
  destruct e as [target|key| |c index|c index|n]; cbn [dispatch].
  - apply triple_readPage; intros p. apply triple_forget.
    destruct (canLand target p); [|apply triple_ret].
    apply triple_seq with (Q := coherent).
    + destruct target; try apply triple_ret. unfold onClick.
      apply triple_seq with (Q := coherent);
        [apply coherent_index | apply coherent_selectCurrent].
    + apply triple_readPage; intros l. apply triple_forget.
      apply triple_when, coherent_documentClickHandler.
  - apply triple_readPage; intros l. apply triple_forget.
    apply triple_when, coherent_tabKeyHandler.
  - apply triple_readPage; intros l. apply triple_forget.
    apply triple_when, triple_ret.
  - apply triple_readPage; intros p. apply triple_forget.
    apply triple_when.
    exact (coherent_hover (Z.of_nat index) (fun i => HandleHovers i (Z.of_nat index))).
  - apply triple_readPage; intros p. apply triple_forget.
    apply triple_when. exact (coherent_hover (Z.of_nat index) HandleMouseLeave).
  - apply triple_readPage; intros ts. apply triple_forget.
    destruct (nth_error ts n) as [tm|]; [|apply triple_ret].
    apply triple_seq with (Q := coherent).
    { apply coherent_page; intros p; reflexivity. }
    destruct tm; [apply coherent_hideRecheck|].
    unfold fire, outsideClickRecheck. apply triple_read; intros v.
    apply triple_forget. apply triple_when, coherent_hide.
Qed.

(** Rows that a caller renders are not the controller's rows. *)
Lemma coherent_renderItems (items : list BangItem) :
  triple coherent (renderItems items CallerCallbacks) coherent.
Proof.
  apply triple_intro. intros w (W & V & R & B).
  destruct (container (this w)) as [id|] eqn:E.
  - exists (mkWorld (putSelectedIndex (-1) (this w))
              (Dom.setContent id
                 (if Nat.eqb (length items) 0
                  then Message "No matching bangs found"
                  else CallerRows items)
                 (Dom.setContent id Blank (page w)))).
    split.
    + clear W V R B. open_world w. subst c. unfold renderItems, clear. js_run.
      destruct (Nat.eqb _ _); reflexivity.
    + apply rendered_coherent; try assumption.
      intros rows. destruct (Nat.eqb _ _); discriminate.
  - exists (mkWorld (putSelectedIndex (-1) (this w)) (page w)). split.
    + clear W V R B. open_world w. subst c. reflexivity.
    + apply (coherent_frame w); try reflexivity.
      exact (conj W (conj V (conj R B))).
Qed.

Lemma coherent_call (c : Call) : triple coherent (call c) coherent.
Proof.
  destruct c; cbn [call].
  - apply coherent_show.
  - apply coherent_hide.
  - apply coherent_setFilteredBangs.
  - apply coherent_index.
  - apply coherent_selectCurrent.
  - apply coherent_selectTopOption.
  - apply coherent_navigate.
  - apply coherent_navigate.
  - apply coherent_dispose.
  - apply coherent_renderItems.
Qed.

Lemma coherent_step (st : Step) : triple coherent (step st) coherent.
Proof. destruct st; [apply coherent_call | apply coherent_dispatch]. Qed.

Lemma construct_coherent o hp cat : coherent (construct o hp cat).
Proof.
  apply coherent_of_none; [apply construct_wellFormed | reflexivity | reflexivity].
Qed.

Lemma reachable_coherent (w : World) : reachable w -> coherent w.
Proof.
  intros (o & hp & cat & l & ->).
  apply (triple_run coherent coherent_step l), construct_coherent.
Qed.

End Coherence.

(* ===================================================================== *)
(** * What reaches [onSelectBang] *)
(* ===================================================================== *)

Section Deliveries.
Context {C : Collaborators}.

Lemma delivers_intro (m : M unit) (k : nat) :
  (forall w, exists w' l,
      m w = Normal tt w' /\
      selections (page w') = (selections (page w) ++ l)%list /\
      (length l <= k)%nat) ->
  delivers m k.
Proof.
  intros H w. destruct (H w) as (w' & l & E & S & L). exists l.
  unfold after. rewrite E. repeat split; assumption.
Qed.

Lemma delivers_ret : delivers (ret tt) 0.
Proof.
  intros w. exists []. split; [reflexivity|]. split; [|apply Nat.le_refl].
  symmetry. apply app_nil_r.
Qed.

Lemma delivers_seq (m k : M unit) (a b : nat) :
  delivers m a -> delivers k b -> delivers (m ;; k) (a + b).
Proof.
  intros Hm Hk. apply delivers_intro. intros w.
  destruct (Hm w) as (l1 & E1 & S1 & L1).
  destruct (Hk (after m w)) as (l2 & E2 & S2 & L2).
  exists (after k (after m w)), (l1 ++ l2)%list. split; [|split].
  - unfold bind. now rewrite E1.
  - now rewrite S2, S1, app_assoc.
  - rewrite length_app. lia.
Qed.

Lemma delivers_more (m : M unit) (a b : nat) :
  (a <= b)%nat -> delivers m a -> delivers m b.
Proof.
  intros Hab H w. destruct (H w) as (l & E & S & L). exists l.
  repeat split; try assumption. lia.
Qed.

Lemma delivers_when (b : bool) (m : M unit) (k : nat) :
  delivers m k -> delivers (when b m) k.
Proof.
  destruct b; [trivial|]. intros _.
  apply (delivers_more _ 0); [lia | apply delivers_ret].
Qed.

Lemma delivers_read {A} (f : Dropdown -> A) (k : A -> M unit) (n : nat) :
  (forall a, delivers (k a) n) -> delivers (a <- read f ;; k a) n.
Proof.
  intros H. apply delivers_intro. intros w.
  destruct (H (f (this w)) w) as (l & E & S & L).
  exists (after (k (f (this w))) w), l. repeat split; assumption.
Qed.

Lemma delivers_readPage {A} (f : Page -> A) (k : A -> M unit) (n : nat) :
  (forall a, delivers (k a) n) -> delivers (a <- readPage f ;; k a) n.
Proof.
  intros H. apply delivers_intro. intros w.
  destruct (H (f (page w)) w) as (l & E & S & L).
  exists (after (k (f (page w))) w), l. repeat split; assumption.
Qed.

Lemma delivers_write (f : Dropdown -> Dropdown) : delivers (write f) 0.
Proof.
  intros w. exists []. split; [reflexivity|]. split; [|apply Nat.le_refl].
  symmetry. apply app_nil_r.
Qed.

Lemma delivers_writePage (f : Page -> Page) :
  (forall p, selections (f p) = selections p) -> delivers (writePage f) 0.
Proof.
  intros H w. exists []. split; [reflexivity|]. split; [|apply Nat.le_refl].
  unfold after, writePage. cbn. rewrite H. symmetry. apply app_nil_r.
Qed.

Lemma setContent_selections (id : nat) (c : Content) (p : Page) :
  selections (Dom.setContent id c p) = selections p.
Proof. now destruct p. Qed.

Lemma silent_hide : delivers hide 0.
Proof.
  apply delivers_intro. intros w. open_world w. unfold hide. js_run.
  destruct c; js_run; eexists; exists []; (split; [reflexivity|]);
    cbn; rewrite app_nil_r; split; trivial.
Qed.

Lemma silent_hideRecheck : delivers hideRecheck 0.
Proof.
  apply delivers_intro. intros w. open_world w. unfold hideRecheck. js_run.
  destruct c; js_run; eexists; exists []; (split; [reflexivity|]);
    cbn; rewrite app_nil_r; split; trivial.
Qed.

Lemma silent_ensureContainer : delivers ensureContainer 0.
Proof.
  apply delivers_intro. intros w. open_world w. unfold ensureContainer. js_run.
  destruct c; js_run; [|destruct (appendTo o); [|destruct hp]; js_run];
    eexists; exists []; (split; [reflexivity|]);
    cbn; rewrite app_nil_r; split; trivial.
Qed.

Lemma silent_renderItems (items : list BangItem) (callbacks : Callbacks) :
  delivers (renderItems items callbacks) 0.
Proof.
  unfold renderItems.
  apply (delivers_seq _ _ 0 0).
  - unfold clear. apply delivers_read; intros c'. apply (delivers_seq _ _ 0 0).
    + destruct c'; [|apply delivers_ret].
      apply delivers_writePage, setContent_selections.
    + apply delivers_write.
  - apply delivers_read; intros [id|]; [|apply delivers_ret].
    destruct (Nat.eqb _ _); apply delivers_writePage, setContent_selections.
Qed.

Lemma silent_populate : delivers populate 0.
Proof.
  unfold populate. apply delivers_read; intros c. apply delivers_read; intros l.
  apply delivers_when, silent_renderItems.
Qed.

Lemma silent_show (query : string) : delivers (show query) 0.
Proof.
  unfold show. apply (delivers_seq _ _ 0 0); [apply silent_ensureContainer|].
  apply delivers_read; intros [id|]; [|apply delivers_ret].
  destruct (JsString.includes _ _); [apply silent_hide|].
  apply (delivers_seq _ _ 0 0); [apply delivers_write|].
  destruct (JsString.falsy _);
    [apply delivers_writePage, setContent_selections|].
  apply delivers_readPage; intros cat. apply delivers_read; intros o.
  apply (delivers_seq _ _ 0 0); [apply delivers_write|].
  apply (delivers_seq _ _ 0 0); [apply silent_populate|].
  apply delivers_read; intros c'. apply delivers_when.
  apply delivers_writePage; intros p; reflexivity.
Qed.

Lemma silent_dispose : delivers dispose 0.
Proof.
  unfold dispose.
  apply (delivers_seq _ _ 0 0); [apply delivers_writePage; intros p; reflexivity|].
  apply (delivers_seq _ _ 0 0); [apply delivers_writePage; intros p; reflexivity|].
  apply (delivers_seq _ _ 0 0); [apply silent_hide|].
  apply delivers_read; intros rh.
  apply (delivers_seq _ _ 0 0).
  - apply delivers_when. apply (delivers_seq _ _ 0 0);
      [apply delivers_writePage; intros p; reflexivity | apply delivers_write].
  - apply (delivers_seq _ _ 0 0); apply delivers_write.
Qed.

Lemma single_selectBang (text : string) : delivers (selectBang text) 1.
Proof.
  unfold selectBang. apply delivers_read; intros o.
  apply (delivers_seq _ _ 1 0); [|apply silent_hide].
  destruct (onSelectBang o); cbn [when].
  - intros w. exists [text]. split; [reflexivity|]. split; [reflexivity|].
    apply Nat.le_refl.
  - apply (delivers_more _ 0); [lia | apply delivers_ret].
Qed.

Lemma single_selectTopOption : delivers selectTopOption 1.
Proof.
  unfold selectTopOption. apply delivers_read; intros l.
  destruct (Z.ltb_spec 0 (Z.of_nat (length l)));
    [|apply (delivers_more _ 0); [lia | apply delivers_ret]].
  destruct (itemAt_in_range l 0) as [b ->]; [lia|]. apply single_selectBang.
Qed.

Lemma single_selectCurrent : delivers selectCurrent 1.
Proof.
  unfold selectCurrent. apply (delivers_seq _ _ 0 1).
  { apply delivers_writePage; intros p; reflexivity. }
  apply delivers_read; intros i. apply delivers_read; intros l.
  destruct ((0 <=? i) && (i <? Z.of_nat (length l)))%bool eqn:G;
    [|apply (delivers_more _ 0); [lia | apply silent_hide]].
  apply andb_true_iff in G as [G1 G2].
  apply Z.leb_le in G1. apply Z.ltb_lt in G2.
  destruct (itemAt_in_range l i) as [b ->]; [lia|]. apply single_selectBang.
Qed.

Lemma single_tabKeyHandler (key : string) : delivers (tabKeyHandler key) 1.
Proof.
  unfold tabKeyHandler. apply delivers_read; intros v.
  apply delivers_read; intros l.
  destruct (_ && _)%bool; [|apply (delivers_more _ 0); [lia | apply delivers_ret]].
  apply delivers_read; intros i. apply (delivers_seq _ _ 1 0); [|apply silent_hide].
  destruct (0 <=? i); [apply single_selectCurrent | apply single_selectTopOption].
Qed.

Lemma silent_documentClickHandler (target : Target) :
  delivers (documentClickHandler target) 0.
Proof.
  unfold documentClickHandler. apply delivers_read; intros v.
  destruct (negb v); [apply delivers_ret|]. apply delivers_read; intros c.
  destruct (_ && _)%bool; [|apply delivers_ret].
  apply (delivers_seq _ _ 0 0); [apply silent_hide|].
  apply delivers_writePage; intros p; reflexivity.
Qed.

Lemma silent_hover (index : Z) (f : Z -> Z) :
  delivers
    (c <- read container;; p <- readPage (fun p => p);; i <- read selectedIndex;;
     when (Dom.hasRow c index p) (write (putSelectedIndex (f i))))
    0.
Proof.
  apply delivers_read; intros c. apply delivers_readPage; intros p.
  apply delivers_read; intros i. apply delivers_when, delivers_write.
Qed.

Lemma step_delivers (st : Step) :
  delivers (step st) (if selecting st then 1 else 0).
Proof.
  destruct st as [c|e]; cbn [step].
  - destruct c; cbn [call selecting].
    + apply silent_show.
    + apply silent_hide.
    + unfold setFilteredBangs. apply (delivers_seq _ _ 0 0); [apply delivers_write|].
      apply delivers_read; intros v. apply delivers_read; intros c.
      apply delivers_when, silent_populate.
    + apply delivers_write.
    + apply single_selectCurrent.
    + apply single_selectTopOption.
    + unfold navigateUp, navigate. apply (delivers_seq _ _ 0 0).
      { apply delivers_writePage; intros p; reflexivity. }
      apply delivers_read; intros l. apply delivers_read; intros i.
      apply delivers_write.
    + unfold navigateDown, navigate. apply (delivers_seq _ _ 0 0).
      { apply delivers_writePage; intros p; reflexivity. }
      apply delivers_read; intros l. apply delivers_read; intros i.
      apply delivers_write.
    + apply silent_dispose.
    + apply silent_renderItems.
  - destruct e as [target|key| |c index|c index|n]; cbn [dispatch selecting].
    + apply delivers_readPage; intros p.
      destruct (canLand target p);
        [|destruct target; apply (delivers_more _ 0); try lia; apply delivers_ret].
      assert (Doc : delivers (l <- readPage clickListener;;
                              when l (documentClickHandler target)) 0).
      { apply delivers_readPage; intros l.
        apply delivers_when, silent_documentClickHandler. }
      destruct target as [|c|c index|];
        try (apply (delivers_seq _ _ 0 0); [apply delivers_ret | exact Doc]).
      apply (delivers_seq _ _ 1 0); [|exact Doc].
      unfold onClick. apply (delivers_seq _ _ 0 1);
        [apply delivers_write | apply single_selectCurrent].
    + apply delivers_readPage; intros l.
      apply delivers_when, single_tabKeyHandler.
    + apply delivers_readPage; intros l. apply delivers_when, delivers_ret.
    + apply delivers_readPage; intros p. apply delivers_when.
      exact (silent_hover (Z.of_nat index) (fun i => HandleHovers i (Z.of_nat index))).
    + apply delivers_readPage; intros p. apply delivers_when.
      exact (silent_hover (Z.of_nat index) HandleMouseLeave).
    + apply delivers_readPage; intros ts.
      destruct (nth_error ts n) as [tm|]; [|apply delivers_ret].
      apply (delivers_seq _ _ 0 0).
      { apply delivers_writePage; intros p; reflexivity. }
      destruct tm; [apply silent_hideRecheck|].
      unfold fire, outsideClickRecheck. apply delivers_read; intros v.
      apply delivers_when, silent_hide.
Qed.

End Deliveries.

(* ===================================================================== *)
(** * Further properties of the dropdown *)
(* ===================================================================== *)

Section Surface.
Context {C : Collaborators}.

(** X1: a second [hide()] right after a first one does nothing: the two
    calls together leave the world (fields, document, pending timers) that
    the first call alone leaves. *)
Theorem hide_twice_is_hide (w : World) : (hide ;; hide) w = hide w.
Proof.
  open_world w. unfold hide. js_run. destruct c; reflexivity.
Qed.

(** X2: a click on the input, or inside the controller's container but
    not on a row, changes nothing at all. *)
Theorem click_inside_keeps_open (w : World) (target : Target) :
  target = OnInput \/
  (exists id, container (this w) = Some id /\ target = InDropdown id) ->
  dispatch (Click target) w = Normal tt w.
Proof.
  intros [-> | (id & E & ->)]; open_world w;
    unfold dispatch, documentClickHandler; js_run.
  - destruct cl; js_run; [|reflexivity].
    destruct v; js_run; [|reflexivity]. destruct c; reflexivity.
  - subst c. unfold isAttached. js_run.
    destruct (existsb (Nat.eqb id) att); [|reflexivity].
    destruct cl; js_run; [|reflexivity].
    destruct v; js_run; [|reflexivity]. now rewrite Nat.eqb_refl.
Qed.

(** X3: a click outside the input and the surface, on a shown surface,
    closes it: the fields are reset, the container leaves the document,
    the footer is switched on again, nothing is handed to [onSelectBang],
    the candidate list stays, and exactly the two re-check timers are
    set. *)
Theorem outside_click_closes (w : World) (id : nat) :
  clickListener (page w) = true ->
  container (this w) = Some id ->
  isVisible (this w) = true ->
  exists w', dispatch (Click Elsewhere) w = Normal tt w' /\
    closed w' /\ selectedIndex (this w') = -1 /\
    ~ In id (attached (page w')) /\
    footerDisabled (page w') = false /\
    selections (page w') = selections (page w) /\
    filteredBangs (this w') = filteredBangs (this w) /\
    timers (page w') = (timers (page w) ++ [HideRecheck; OutsideClickRecheck])%list.
Proof.
  intros Hl Hc Hv. open_world w. subst cl c v.
  unfold dispatch, documentClickHandler, hide. js_run.
  eexists. split; [reflexivity|]. cbn. repeat split.
  - intros I. apply filter_In in I as [_ I]. now rewrite Nat.eqb_refl in I.
  - now rewrite <- app_assoc.
Qed.

Lemma closed_timeout (w : World) (n : nat) :
  closed w ->
  exists w', dispatch (Timeout n) w = Normal tt w' /\
    this w' = this w /\
    elements (page w') = elements (page w) /\
    attached (page w') = attached (page w) /\
    selections (page w') = selections (page w) /\
    (length (timers (page w')) <= length (timers (page w)))%nat.
Proof.
  intros [Hc Hv]. open_world w. subst c v. unfold dispatch. js_run.
  destruct (nth_error ts n) as [tm|] eqn:E; js_run.
  - assert (L : (length (firstn n ts ++ skipn (S n) ts) <= length ts)%nat).
    { rewrite length_app, length_firstn, length_skipn. lia. }
    destruct tm; unfold fire, hideRecheck, outsideClickRecheck; js_run;
      eexists; (split; [reflexivity|]); cbn; repeat split; exact L.
  - eexists. split; [reflexivity|]. repeat split. apply Nat.le_refl.
Qed.

(** X4: on a closed machine the pending timers are idle: whichever of
    them fire, and in whatever order, nothing throws and the fields of the
    controller, the elements, the document and the deliveries stay as they
    are. *)
Theorem closed_timers_do_nothing (w : World) (ns : list nat) :
  closed w ->
  exists w', asyncs (map Timeout ns) w = Normal tt w' /\
    this w' = this w /\
    elements (page w') = elements (page w) /\
    attached (page w') = attached (page w) /\
    selections (page w') = selections (page w) /\
    (length (timers (page w')) <= length (timers (page w)))%nat.
Proof.
  revert w. induction ns as [|n ns IH]; intros w Hw.
  - exists w. split; [reflexivity|]. repeat split. apply Nat.le_refl.
  - destruct (closed_timeout w n Hw) as (w1 & E1 & T1 & L1 & A1 & S1 & N1).
    assert (Hw1 : closed w1) by (unfold closed in *; now rewrite T1).
    destruct (IH w1 Hw1) as (w2 & E2 & T2 & L2 & A2 & S2 & N2).
    exists w2. split.
    + unfold asyncs. cbn [map run step]. unfold bind. rewrite E1. exact E2.
    + repeat split; try congruence. lia.
Qed.

(** X5: in every world the dropdown can reach, a dropdown element that is
    in the document is the controller's current container, so with no
    container the document holds none; and a controller that holds a
    container counts itself visible. *)
Theorem document_has_no_orphan (w : World) :
  reachable w ->
  (forall c, In c (attached (page w)) -> container (this w) = Some c) /\
  (container (this w) = None -> attached (page w) = []) /\
  (container (this w) <> None -> isVisible (this w) = true).
Proof.
  intros R. destruct (reachable_coherent w R) as ((T & _) & V & _ & _).
  split; [exact T|]. split; [|exact V]. intros N. now apply tidy_none_nil.
Qed.

(** X6: in every world the dropdown can reach, outside calls of
    [renderItems] included, the rows in the controller's container that
    carry the listeners of [populate] are exactly the candidate list it
    holds, and such rows are only there for a list that is not empty.
    Rows that an outside call of [renderItems] rendered carry the caller's
    callbacks and are not covered. *)
Theorem rows_show_the_candidates (w : World) (id : nat) (items : list BangItem) :
  reachable w ->
  container (this w) = Some id ->
  Dom.contentOf id (page w) = Results items ->
  items = filteredBangs (this w) /\ items <> [].
Proof.
  intros R Hc Hs. destruct (reachable_coherent w R) as (_ & _ & Rows & _).
  exact (Rows id items Hc Hs).
Qed.

Lemma itemAt_of_nat (l : list BangItem) (n : nat) :
  itemAt l (Z.of_nat n) = nth_error l n.
Proof.
  unfold itemAt. destruct (Z.ltb_spec (Z.of_nat n) 0); [lia|].
  now rewrite Nat2Z.id.
Qed.

Lemma row_is_candidate (w : World) (c index : nat) :
  coherent w -> rowExists c index (page w) = true ->
  container (this w) = Some c /\
  Dom.contentOf c (page w) = Results (filteredBangs (this w)) /\
  (index < length (filteredBangs (this w)))%nat.
Proof.
  intros ((T & _) & _ & Rows & _) H. unfold rowExists, isAttached in H.
  apply andb_true_iff in H as [Ha Hr].
  apply existsb_exists in Ha as (x & Hx & Ex).
  apply Nat.eqb_eq in Ex. subst x. pose proof (T c Hx) as Hc.
  apply Nat.ltb_lt in Hr.
  destruct (Dom.contentOf c (page w)) as [|text|items|items] eqn:Ec;
    cbn in Hr; try lia.
  destruct (Rows c items Hc Ec) as [-> _]. now repeat split.
Qed.

(** X7: in every world the dropdown can reach, outside calls of
    [renderItems] included, a click on a row that is on screen and carries
    the click listener of [populate] hands the trigger of the candidate
    shown in that row to [onSelectBang], once, and closes the surface. *)
Theorem row_click_selects_that_row (w : World) (c index : nat) :
  reachable w ->
  rowExists c index (page w) = true ->
  onSelectBang (options (this w)) = true ->
  exists w' bang,
    dispatch (Click (OnRow c index)) w = Normal tt w' /\
    Dom.contentOf c (page w) = Results (filteredBangs (this w)) /\
    nth_error (filteredBangs (this w)) index = Some bang /\
    selections (page w') = (selections (page w) ++ [t bang])%list /\
    closed w' /\ ~ In c (attached (page w')).
Proof.
  intros R Hrow Ho.
  destruct (row_is_candidate w c index (reachable_coherent w R) Hrow)
    as (Hc & Hs & Hlt).
  destruct (nth_error (filteredBangs (this w)) index) as [bang|] eqn:Hn;
    [|apply nth_error_None in Hn; lia].
  pose (w1 := mkWorld (putSelectedIndex (Z.of_nat index) (this w))
                      (Dom.withKeyboardNavigation true (page w))).
  destruct (selectBang_shown w1 c (t bang) Hc Ho)
    as (w' & E & Hsel & Hcl & _ & Hout).
  exists w', bang.
  split; [|exact (conj Hs (conj eq_refl (conj Hsel (conj Hcl Hout))))].
  assert (Hclick : onClick (Z.of_nat index) w = Normal tt w').
  { unfold onClick, selectCurrent, bind, write, read,
      Dom.setKeyboardNavigationActive, writePage.
    cbn [this page putSelectedIndex selectedIndex filteredBangs].
    destruct (Z.leb_spec 0 (Z.of_nat index)); [|lia].
    destruct (Z.ltb_spec (Z.of_nat index)
                (Z.of_nat (length (filteredBangs (this w))))); [|lia].
    cbn [andb]. rewrite itemAt_of_nat, Hn. exact E. }
  unfold dispatch, bind, readPage. cbn [canLand]. rewrite Hrow, Hclick.
  destruct (clickListener (page w')); [|reflexivity].
  cbn [when]. unfold documentClickHandler, bind, read.
  destruct Hcl as [_ ->]. reflexivity.
Qed.


(** X9: [show] makes a dropdown container only when the controller
    holds none: with a container the containers stay the same and, unless
    the query has a space, the controller keeps its container; without
    one exactly one container is made.  (The results container and the
    rows that [renderItems] builds inside it are not counted.) *)
Theorem show_reuses_container (w : World) (query : string) :
  (forall id, container (this w) = Some id ->
     map fst (elements (page (after (show query) w)))
       = map fst (elements (page w)) /\
     (JsString.includes " " query = false ->
      container (this (after (show query) w)) = Some id)) /\
  (container (this w) = None ->
     length (elements (page (after (show query) w)))
       = S (length (elements (page w)))).
Proof.
  split.
  - intros id E.
    assert (M : forall x y, map fst (elements (Dom.setContent id x
                              (Dom.setContent id y (page w))))
                            = map fst (elements (page w)))
      by (intros; now rewrite !map_fst_setContent).
    pose proof (map_fst_setContent id
                  (Message "Start typing to search for bangs...") (page w)) as M1.
    open_world w. subst c.
    unfold after, show, ensureContainer, populate, renderItems, clear, hide.
    js_run. destruct (JsString.includes " " query); js_run.
    + split; [reflexivity | discriminate].
    + destruct (JsString.falsy query); js_run.
      * split; [exact M1 | reflexivity].
      * destruct (Nat.eqb _ _); js_run; (split; [apply M | reflexivity]).
  - intros E. open_world w. subst c.
    unfold after, show, ensureContainer, populate, renderItems, clear, hide.
    js_run.
    destruct (appendTo o); [|destruct hp]; js_run;
      (destruct (JsString.includes " " query); js_run; [reflexivity|]);
      (destruct (JsString.falsy query); js_run;
         [now rewrite length_map|]);
      (destruct (Nat.eqb _ _); js_run; now rewrite !length_map).
Qed.

(** X10: [setFilteredBangs] on a controller without a container only
    stores the list; in a reachable world with a container it stores the
    list, clears the selection and shows the list's rows, or the message
    "No matching bangs found" for the empty list. *)
Theorem setFilteredBangs_stores_or_renders (w : World) (items : list BangItem) :
  (container (this w) = None ->
     setFilteredBangs items w
       = Normal tt (mkWorld (putFilteredBangs items (this w)) (page w))) /\
  (reachable w ->
   forall id, container (this w) = Some id ->
     exists w', setFilteredBangs items w = Normal tt w' /\
       container (this w') = Some id /\
       isVisible (this w') = true /\
       filteredBangs (this w') = items /\
       selectedIndex (this w') = -1 /\
       Dom.contentOf id (page w') = rendering items).
Proof.
  split.
  - intros E. open_world w. subst c. unfold setFilteredBangs. js_run.
    now rewrite andb_false_r.
  - intros R id E.
    destruct (reachable_coherent w R) as ((_ & K) & V & _ & _).
    specialize (K id E). assert (Hv : isVisible (this w) = true)
      by (apply V; congruence).
    assert (K2 : In id (map fst (elements (Dom.setContent id Blank (page w)))))
      by now rewrite map_fst_setContent.
    exists (mkWorld
              (mkDropdown (Some id) true (-1) (options (this w)) items
                          (resizeHandler (this w)))
              (Dom.setContent id (rendering items)
                 (Dom.setContent id Blank (page w)))).
    split.
    + clear K K2 V. open_world w. subst c v.
      unfold setFilteredBangs, populate, renderItems, clear, rendering.
      js_run. destruct (Nat.eqb _ _); reflexivity.
    + repeat split.
      exact (contentOf_setContent id (rendering items) _ K2).
Qed.

(** X11: in every world the dropdown can reach, [dispose] returns normally
    and leaves no subscription and no element behind: the click, keydown
    and resize listeners are gone, [resizeHandler] is [null], there is no
    container, the document holds no dropdown element, the candidate list
    is empty, and nothing was handed to [onSelectBang]. *)
Theorem dispose_unsubscribes_everything (w : World) :
  reachable w ->
  exists w', dispose w = Normal tt w' /\
    clickListener (page w') = false /\
    keydownListener (page w') = false /\
    resizeListener (page w') = false /\
    resizeHandler (this w') = false /\
    container (this w') = None /\
    attached (page w') = [] /\
    filteredBangs (this w') = [] /\
    selections (page w') = selections (page w).
Proof.
  intros R. destruct (reachable_coherent w R) as (W & _ & _ & B).
  exists (after dispose w). split; [apply dispose_normal|].
  destruct (dispose_disposed w W) as (Hc & Hl & Ha & Hcl & Hkl).
  destruct (dispose_leaves w) as (_ & Hrh & Hrl).
  destruct (silent_dispose w) as (l & _ & S & L).
  destruct l; [|cbn in L; lia]. rewrite app_nil_r in S.
  repeat split; try assumption. exact (Hrl B).
Qed.

Lemma run_delivers (l : list Step) :
  delivers (run l) (length (filter selecting l)).
Proof.
  induction l as [|st l IH]; cbn [run filter]; [apply delivers_ret|].
  pose proof (step_delivers st) as H.
  destruct (selecting st); cbn [length].
  - exact (delivers_seq _ _ 1 _ H IH).
  - exact (delivers_seq _ _ 0 _ H IH).
Qed.

(** X12: whatever the world, a sequence of method calls and events only
    adds to what was handed to [onSelectBang], and adds at most one text
    for each [selectCurrent], [selectTopOption], key press or click on a
    row in it; the other calls and events ([show], [hide], [dispose],
    [setFilteredBangs], [renderItems], other clicks, timers, pointer
    moves, resizes) hand over nothing.  Selected indices are integers
    here. *)
Theorem deliveries_bounded_by_selecting_steps (l : list Step) (w : World) :
  exists d,
    selections (page (after (run l) w)) = (selections (page w) ++ d)%list /\
    (length d <= length (filter selecting l))%nat.
Proof.
  destruct (run_delivers l w) as (d & _ & S & L).
  exists d. split; [exact S | exact L].
Qed.


(** X15: the re-check timer that an outside click sets closes whatever
    surface is shown when it fires, also one that was opened after the
    click; nothing is handed to [onSelectBang]. *)
Theorem pending_recheck_closes_reopened_surface (w : World) (id n : nat) :
  nth_error (timers (page w)) n = Some OutsideClickRecheck ->
  container (this w) = Some id ->
  isVisible (this w) = true ->
  exists w', dispatch (Timeout n) w = Normal tt w' /\
    closed w' /\ ~ In id (attached (page w')) /\
    selections (page w') = selections (page w).
Proof.
  intros Hn Hc Hv. open_world w. subst c v. unfold dispatch. js_run.
  rewrite Hn. unfold fire, outsideClickRecheck, hide. js_run.
  eexists. split; [reflexivity|]. cbn. repeat split.
  intros I. apply filter_In in I as [_ I]. now rewrite Nat.eqb_refl in I.
Qed.

End Surface.

(* ===================================================================== *)
(** * Further properties of the search form *)
(* ===================================================================== *)

Section Replacement.

Lemma includes_unit_app (c : ascii) (a b : string) :
  JsString.includes (String c EmptyString) (a ++ b)
    = (JsString.includes (String c EmptyString) a
       || JsString.includes (String c EmptyString) b)%bool.
Proof.
  induction a as [|x a IH].
  - cbn [String.append]. reflexivity.
  - cbn [String.append]. rewrite !includes_unit_cons, IH. apply orb_assoc.
Qed.

Lemma handleBangSelection_at_last
    (bangText pre post : string) (i : SearchForm.SearchInput) :
  SearchForm.value i = pre ++ String "!"%char post ->
  JsString.includes "!" post = false ->
  SearchForm.handleBangSelection bangText i
    = SearchForm.mkInput (pre ++ String "!"%char (bangText ++ " ")) true.
Proof.
  intros E H. unfold SearchForm.handleBangSelection, JsString.lastIndexOf.
  rewrite E, (lastIndexFrom_last "!"%char pre post 0 H). cbn [Nat.add].
  destruct (Z.leb_spec 0 (Z.of_nat (String.length pre))); [|lia].
  unfold JsString.substring0.
  replace (Z.to_nat (Z.of_nat (String.length pre) + 1))
    with (S (String.length pre)) by lia.
  rewrite substring_through, append_assoc. reflexivity.
Qed.

(** X14: a later selection takes the place of an earlier one: when the
    first trigger has no ['!'] in it, selecting [t1] and then [t2] leaves
    the input as selecting [t2] alone does.  In particular selecting the
    same bang twice is selecting it once. *)
Theorem later_selection_replaces_earlier
    (t1 t2 : string) (i : SearchForm.SearchInput) :
  JsString.includes "!" t1 = false ->
  SearchForm.handleBangSelection t2 (SearchForm.handleBangSelection t1 i)
    = SearchForm.handleBangSelection t2 i.
Proof.
  intros H1.
  destruct (JsString.includes "!" (SearchForm.value i)) eqn:E.
  - destruct (split_at_last "!"%char _ E) as (pre & post & Ev & Hp).
    rewrite (handleBangSelection_at_last t1 pre post i Ev Hp).
    rewrite (handleBangSelection_at_last t2 pre post i Ev Hp).
    apply (handleBangSelection_at_last t2 pre (t1 ++ " ")); [reflexivity|].
    rewrite includes_unit_app, H1. reflexivity.
  - assert (N : SearchForm.handleBangSelection t1 i = i).
    { unfold SearchForm.handleBangSelection, JsString.lastIndexOf.
      now rewrite (lastIndexFrom_absent "!"%char _ 0 E). }
    now rewrite N.
Qed.

End Replacement.

(* ===================================================================== *)
(** * The further properties at work on the sample worlds *)
(* ===================================================================== *)

Lemma pinned_reachable : reachable Scenario.pinned.
Proof.
  exists (mkUserOptions None true true (Some Fixed)), true, Sample.bangs,
         [Api (Show "g")].
  reflexivity.
Defined.

Lemma click_inside_keeps_open_witness :
  dispatch (Click (InDropdown 0)) Sample.listing = Normal tt Sample.listing.
Proof.
  exact (click_inside_keeps_open Sample.listing (InDropdown 0)
           (or_intror (ex_intro _ 0%nat (conj eq_refl eq_refl)))).
Defined.

Lemma outside_click_closes_witness :
  exists w', dispatch (Click Elsewhere) Sample.listing = Normal tt w' /\
    closed w' /\ selectedIndex (this w') = -1 /\
    ~ In 0%nat (attached (page w')) /\
    footerDisabled (page w') = false /\
    selections (page w') = [] /\
    filteredBangs (this w') = [Sample.google; Sample.github; Sample.images] /\
    timers (page w') = [HideRecheck; OutsideClickRecheck].
Proof.
  exact (outside_click_closes Sample.listing 0 eq_refl eq_refl eq_refl).
Defined.

Lemma closed_timers_do_nothing_witness :
  closed Scenario.dismissed /\
  exists w', asyncs (map Timeout [1%nat; 0%nat]) Scenario.dismissed = Normal tt w' /\
    this w' = this Scenario.dismissed.
Proof.
  assert (H : closed Scenario.dismissed) by (split; reflexivity).
  split; [exact H|].
  destruct (closed_timers_do_nothing Scenario.dismissed [1%nat; 0%nat] H)
    as (w' & E & T & _).
  exists w'. split; [exact E | exact T].
Defined.

Lemma document_has_no_orphan_witness :
  reachable Sample.listing /\
  (forall c, In c (attached (page Sample.listing)) ->
             container (this Sample.listing) = Some c) /\
  isVisible (this Sample.listing) = true.
Proof.
  split; [exact listing_reachable|].
  destruct (document_has_no_orphan Sample.listing listing_reachable)
    as (H1 & _ & H3).
  split; [exact H1 | apply H3; discriminate].
Defined.

Lemma rows_show_the_candidates_witness :
  [Sample.google; Sample.github; Sample.images]
    = filteredBangs (this Sample.listing).
Proof.
  exact (proj1 (rows_show_the_candidates Sample.listing 0
                  [Sample.google; Sample.github; Sample.images]
                  listing_reachable eq_refl eq_refl)).
Defined.

Lemma row_click_selects_that_row_witness :
  exists w' bang,
    dispatch (Click (OnRow 0 1)) Sample.listing = Normal tt w' /\
    Dom.contentOf 0 (page Sample.listing)
      = Results (filteredBangs (this Sample.listing)) /\
    nth_error (filteredBangs (this Sample.listing)) 1 = Some bang /\
    selections (page w') = [t bang] /\
    closed w' /\ ~ In 0%nat (attached (page w')).
Proof.
  exact (row_click_selects_that_row Sample.listing 0 1
           listing_reachable eq_refl eq_refl).
Defined.


Lemma show_reuses_container_witness :
  container (this (after (show "gh") Sample.listing)) = Some 0%nat /\
  length (elements (page (after (show "gh") Sample.fresh))) = 1%nat.
Proof.
  split.
  - exact (proj2 (proj1 (show_reuses_container Sample.listing "gh") 0%nat eq_refl)
                 eq_refl).
  - exact (proj2 (show_reuses_container Sample.fresh "gh") eq_refl).
Defined.

Lemma setFilteredBangs_stores_or_renders_witness :
  setFilteredBangs [Sample.wikipedia] Sample.fresh
    = Normal tt (mkWorld (putFilteredBangs [Sample.wikipedia] (this Sample.fresh))
                         (page Sample.fresh)) /\
  exists w', setFilteredBangs [] Sample.listing = Normal tt w' /\
    container (this w') = Some 0%nat /\
    isVisible (this w') = true /\
    filteredBangs (this w') = [] /\
    selectedIndex (this w') = -1 /\
    Dom.contentOf 0 (page w') = Message "No matching bangs found".
Proof.
  split.
  - exact (proj1 (setFilteredBangs_stores_or_renders Sample.fresh
                    [Sample.wikipedia]) eq_refl).
  - exact (proj2 (setFilteredBangs_stores_or_renders Sample.listing [])
                 listing_reachable 0%nat eq_refl).
Defined.

Lemma dispose_unsubscribes_everything_witness :
  reachable Scenario.pinned /\
  resizeListener (page Scenario.pinned) = true /\
  exists w', dispose Scenario.pinned = Normal tt w' /\
    clickListener (page w') = false /\
    keydownListener (page w') = false /\
    resizeListener (page w') = false /\
    resizeHandler (this w') = false /\
    container (this w') = None /\
    attached (page w') = [] /\
    filteredBangs (this w') = [] /\
    selections (page w') = selections (page Scenario.pinned).
Proof.
  split; [exact pinned_reachable|]. split; [reflexivity|].
  exact (dispose_unsubscribes_everything Scenario.pinned pinned_reachable).
Defined.


Lemma pending_recheck_closes_reopened_surface_witness :
  exists w', dispatch (Timeout 1) Scenario.reopened = Normal tt w' /\
    closed w' /\ ~ In 1%nat (attached (page w')) /\
    selections (page w') = selections (page Scenario.reopened).
Proof.
  exact (pending_recheck_closes_reopened_surface Scenario.reopened 1 1
           eq_refl eq_refl eq_refl).
Defined.

Lemma later_selection_replaces_earlier_witness :
  SearchForm.handleBangSelection "gh" Scenario.chosen
    = SearchForm.handleBangSelection "gh" Sample.typed.
Proof.
  exact (later_selection_replaces_earlier "w" "gh" Sample.typed eq_refl).
Defined.
